(** * Clipify: subtitle timing and segmentation

    A shallow embedding of [scripts/create_interactive_subtitles.py] and the
    properties of its timing logic, with the time functions and the text
    extraction of [scripts/suggest_clip.py], which writes the clip timing
    the engine reads, and the crop arithmetic of [scripts/smart_crop.py].

    Conventions of the embedding.
    - A Python [str] is a [string]; a character is a code point below 256.
    - A Python [int] is a [Z].
    - A time in seconds (a Python [float]) is an exact rational [Q]; results
      about times are stated up to [==] or after [Qred], and hold of the
      floats of the script up to rounding.  Where rounding decides, the
      module [Binary64] has the two clip makers over binary64.
    - An [int] that a float operation converts raises [OverflowError] when it
      is too large for a float.
    - A function that can raise returns a [result]; [try]/[except] is
      [try_except].
    - A [for] loop that appends to a list is a [Fixpoint] threading the list
      built so far.
    - MoviePy's [TextClip] is a record of the arguments and of the values
      given to [set_position], [set_duration] and [set_start]. *)

From Stdlib Require Import List String Ascii Bool Arith ZArith QArith Qminmax Lia Lqa.
From Stdlib Require DecimalString.
From Stdlib Require Import Sorted.
From Stdlib Require Import PrimFloat.
Import ListNotations.

Local Open Scope string_scope.
Local Open Scope Z_scope.

(** ** Exceptions *)

Inductive exn : Type :=
| ValueError
| OverflowError
| OSError
| KeyError.

Inductive result (A : Type) : Type :=
| Returned (a : A)
| Raised (e : exn).

Arguments Returned {A} a.
Arguments Raised {A} e.

Notation "x <- r ;; k" := (match r with
                           | Returned x => k
                           | Raised e => Raised e
                           end)
  (at level 61, r at next level, right associativity).

Definition try_except {A : Type} (body : result A) (handler : exn -> result A)
  : result A :=
  match body with
  | Returned a => Returned a
  | Raised e => handler e
  end.

(** ** Characters and the string methods the script uses *)

Definition LF : ascii := ascii_of_nat 10.

Definition code (c : ascii) : nat := nat_of_ascii c.

(** [str.isspace], which is also the class [\s] of [re] and the set removed
    by [str.strip()] and [str.split()]. *)
Definition isspace (c : ascii) : bool :=
  let n := code c in
  ((9 <=? n) && (n <=? 13) || (28 <=? n) && (n <=? 32)
   || (n =? 133) || (n =? 160))%nat.

(** The class [\d] of [re], and the digits of [int()]. *)
Definition isdigit (c : ascii) : bool :=
  let n := code c in ((48 <=? n) && (n <=? 57))%nat.

(** White space that [int()] skips around a literal. *)
Definition int_space (c : ascii) : bool :=
  let n := code c in
  ((9 <=? n) && (n <=? 13) || (n =? 32) || (n =? 133) || (n =? 160))%nat.

Definition digit_value (c : ascii) : Z := Z.of_nat (code c - 48).

Definition nonempty (s : string) : bool :=
  match s with
  | EmptyString => false
  | String _ _ => true
  end.

Definition snoc (s : string) (c : ascii) : string := (s ++ String c "")%string.

Fixpoint lstrip_by (p : ascii -> bool) (s : string) : string :=
  match s with
  | EmptyString => EmptyString
  | String c s' => if p c then lstrip_by p s' else s
  end.

Fixpoint rstrip_by (p : ascii -> bool) (s : string) : string :=
  match s with
  | EmptyString => EmptyString
  | String c s' =>
      match rstrip_by p s' with
      | EmptyString => if p c then EmptyString else String c EmptyString
      | r => String c r
      end
  end.

(** [s.strip()] *)
Definition str_strip (s : string) : string := rstrip_by isspace (lstrip_by isspace s).

(** [s.split()]: the maximal runs of characters that are not white space. *)
Fixpoint str_split_words (cur : string) (s : string) : list string :=
  match s with
  | EmptyString => if nonempty cur then [cur] else []
  | String c s' =>
      if isspace c
      then if nonempty cur then cur :: str_split_words "" s' else str_split_words "" s'
      else str_split_words (snoc cur c) s'
  end.

Definition str_split (s : string) : list string := str_split_words "" s.

(** [s.split(sep)] for a separator of one character. *)
Fixpoint str_split_from (sep : ascii) (cur : string) (s : string) : list string :=
  match s with
  | EmptyString => [cur]
  | String c s' =>
      if Ascii.eqb c sep
      then cur :: str_split_from sep "" s'
      else str_split_from sep (snoc cur c) s'
  end.

Definition str_split_on (sep : ascii) (s : string) : list string :=
  str_split_from sep "" s.

(** [' '.join(words)] *)
Definition str_join (words : list string) : string := String.concat " " words.

(** ** [int(s)] in base 10 *)

(** The digits after a first digit: a single underscore may separate two
    digits. *)
Fixpoint int_digits (acc : Z) (s : string) : option Z :=
  match s with
  | EmptyString => Some acc
  | String c s' =>
      if isdigit c then int_digits (10 * acc + digit_value c) s'
      else if Ascii.eqb c "_" then
        match s' with
        | String d s'' =>
            if isdigit d then int_digits (10 * acc + digit_value d) s'' else None
        | EmptyString => None
        end
      else None
  end.

Definition int_unsigned (s : string) : option Z :=
  match s with
  | String d s' => if isdigit d then int_digits (digit_value d) s' else None
  | EmptyString => None
  end.

Definition int_literal (s : string) : option Z :=
  match s with
  | String "+" s' => int_unsigned s'
  | String "-" s' => option_map Z.opp (int_unsigned s')
  | _ => int_unsigned s
  end.

Definition int (s : string) : result Z :=
  match int_literal (rstrip_by int_space (lstrip_by int_space s)) with
  | Some z => Returned z
  | None => Raised ValueError
  end.

(** ** Timestamps *)

(** The conversion of an [int] operand of a float operation: the integers
    from [float_limit] on, in absolute value, round to no finite float and
    the operation raises [OverflowError]. *)
Definition float_limit : Z := 2 ^ 1024 - 2 ^ 970.

Definition float_of_int (z : Z) : result Q :=
  if Z.abs z <? float_limit then Returned (inject_Z z) else Raised OverflowError.

(** [timestamp_to_seconds]: an SRT timestamp [HH:MM:SS,mmm] to seconds.
    The last line divides the [int] [ms] by a float and adds the quotient
    to the [int] number of whole seconds: each converts its [int]. *)
Definition timestamp_to_seconds (timestamp : string) : result Q :=
  match str_split_on "," timestamp with
  | [time_part; ms_part] =>
      match str_split_on ":" time_part with
      | [h; m; s] =>
          h <- int h ;;
          m <- int m ;;
          s <- int s ;;
          ms <- int ms_part ;;
          let whole := h * 3600 + m * 60 + s in
          ms <- float_of_int ms ;;
          whole <- float_of_int whole ;;
          Returned (whole + ms / 1000)%Q
      | _ => Raised ValueError
      end
  | _ => Raised ValueError
  end.

(** [time_to_seconds], local to [add_interactive_subtitles_with_timing]:
    a clip time [HH:MM:SS] to seconds. *)
Definition time_to_seconds (time_str : string) : result Z :=
  match str_split_on ":" time_str with
  | [h; m; s] =>
      h <- int h ;;
      m <- int m ;;
      s <- int s ;;
      Returned (h * 3600 + m * 60 + s)
  | _ => Raised ValueError
  end.

(** ** The transcript parser *)

(** A subtitle entry: the dict with keys ['start'], ['end'] and ['text']. *)
Record Sub : Type := mkSub {
  sub_start : Q;
  sub_end : Q;
  sub_text : string
}.

(** The number of characters that [\s*\n] consumes at the head of [s]:
    the white space run up to its last line feed ([\s*] is greedy). *)
Fixpoint blank_gap (s : string) : option nat :=
  match s with
  | EmptyString => None
  | String c s' =>
      if isspace c then
        match blank_gap s' with
        | Some k => Some (S k)
        | None => if Ascii.eqb c LF then Some 1%nat else None
        end
      else None
  end.

(** [re.split(r'\n\s*\n', content)].  [skip] characters of a separator
    are still to be dropped; [cur] is the block read so far. *)
Fixpoint re_split_from (skip : nat) (cur : string) (s : string) : list string :=
  match s with
  | EmptyString => [cur]
  | String c s' =>
      match skip with
      | S k => re_split_from k cur s'
      | O =>
          if Ascii.eqb c LF then
            match blank_gap s' with
            | Some k => cur :: re_split_from k "" s'
            | None => re_split_from 0 (snoc cur c) s'
            end
          else re_split_from 0 (snoc cur c) s'
      end
  end.

Definition re_split_blank (content : string) : list string :=
  re_split_from 0 "" content.

(** A prefix of [s] whose characters are in the classes [pat], one each,
    and what follows it. *)
Fixpoint match_classes (pat : list (ascii -> bool)) (s : string)
  : option (string * string) :=
  match pat with
  | [] => Some (EmptyString, s)
  | p :: pat' =>
      match s with
      | String c s' =>
          if p c then
            match match_classes pat' s' with
            | Some (g, r) => Some (String c g, r)
            | None => None
            end
          else None
      | EmptyString => None
      end
  end.

Definition is_char (a : ascii) : ascii -> bool := fun c => Ascii.eqb c a.

(** [\d{2}:\d{2}:\d{2},\d{3}] *)
Definition timestamp_pattern : list (ascii -> bool) :=
  [isdigit; isdigit; is_char ":"; isdigit; isdigit; is_char ":";
   isdigit; isdigit; is_char ","; isdigit; isdigit; isdigit].

Definition arrow_pattern : list (ascii -> bool) :=
  [is_char "-"; is_char "-"; is_char ">"].

(** [re.match(r'(\d{2}:\d{2}:\d{2},\d{3})\s*-->\s*(\d{2}:\d{2}:\d{2},\d{3})',
    timestamp_line)], giving groups 1 and 2.  The match is anchored at the
    start of the line only. *)
Definition re_match_timestamps (timestamp_line : string)
  : option (string * string) :=
  match match_classes timestamp_pattern timestamp_line with
  | Some (g1, r1) =>
      match match_classes arrow_pattern (lstrip_by isspace r1) with
      | Some (_, r2) =>
          match match_classes timestamp_pattern (lstrip_by isspace r2) with
          | Some (g2, _) => Some (g1, g2)
          | None => None
          end
      | None => None
      end
  | None => None
  end.

(** The body of the loop [for block in blocks] of [parse_srt_file]. *)
Fixpoint parse_blocks (blocks : list string) (subtitles : list Sub)
  : result (list Sub) :=
  match blocks with
  | [] => Returned subtitles
  | block :: rest =>
      let lines := str_split_on LF (str_strip block) in
      if (3 <=? List.length lines)%nat then
        let timestamp_line := nth 1 lines "" in
        match re_match_timestamps timestamp_line with
        | Some (start_time, end_time) =>
            let text := str_strip (str_join (skipn 2 lines)) in
            start_seconds <- timestamp_to_seconds start_time ;;
            end_seconds <- timestamp_to_seconds end_time ;;
            parse_blocks rest
              (subtitles ++ [mkSub start_seconds end_seconds text])
        | None => parse_blocks rest subtitles
        end
      else parse_blocks rest subtitles
  end.

(** What [open(srt_path, 'r', encoding='utf-8')] and [f.read()] give. *)
Inductive file : Type :=
| Unreadable (e : exn)
| Contents (s : string).

Definition read (f : file) : result string :=
  match f with
  | Unreadable e => Raised e
  | Contents s => Returned s
  end.

(** The [try] block of [parse_srt_file]. *)
Definition parse_srt_body (srt : file) : result (list Sub) :=
  content <- read srt ;;
  let content := str_strip content in
  let blocks := re_split_blank content in
  parse_blocks blocks [].

(** [parse_srt_file]: any exception of the body is caught and the empty
    list returned. *)
Definition parse_srt_file (srt : file) : result (list Sub) :=
  try_except (parse_srt_body srt) (fun _ => Returned []).

(** ** Comparisons, [min] and [max] on times *)

Local Open Scope Q_scope.
Local Open Scope list_scope.

Definition Qlt_bool (x y : Q) : bool := negb (Qle_bool y x).

(** [max(a, b)]: [b] when it is greater than [a], else [a]. *)
Definition py_max (a b : Q) : Q := if Qlt_bool a b then b else a.

(** [min(a, b)]: [b] when it is less than [a], else [a]. *)
Definition py_min (a b : Q) : Q := if Qlt_bool b a then b else a.

(** [len(xs)] where a time is multiplied or divided by it. *)
Definition Qlen {A : Type} (xs : list A) : Q := inject_Z (Z.of_nat (List.length xs)).

Definition Qnat (n : nat) : Q := inject_Z (Z.of_nat n).

(** ** Text clips *)

Record TextClip : Type := mkTextClip {
  clip_txt : string;
  clip_fontsize : Z;
  clip_color : string;
  clip_stroke_color : string;
  clip_stroke_width : Z;
  clip_font : string;
  clip_method : option string;
  clip_size : option Q;          (* width of the caption box *)
  clip_pos_y : Q;                (* set_position(('center', y)) *)
  clip_duration : Q;             (* set_duration *)
  clip_start : Q                 (* set_start *)
}.

(** MoviePy keeps [end = start + duration] through [set_duration] and
    [set_start]. *)
Definition clip_end (c : TextClip) : Q := clip_start c + clip_duration c.

Definition video_size_t : Type := (Z * Z)%type.

(** ** The word highlighter *)

Section WordHighlighting.

Variables (start_time end_time : Q) (video_size : video_size_t).
Variable time_per_word : Q.

Let font_size : Z := Z.min 100 (fst video_size / 10).
Let y_position : Q := inject_Z (snd video_size) * (75 # 100).

(** The loop [for i, word in enumerate(words)], from index [i] on. *)
Fixpoint highlight_loop (i : nat) (words : list string) (clips : list TextClip)
  : list TextClip :=
  match words with
  | [] => clips
  | word :: rest =>
      let word_start := start_time + (Qnat i * time_per_word) in
      let word_end :=
        py_min (start_time + (Qnat (i + 1) * time_per_word)) end_time in
      let word_duration := word_end - word_start in
      if Qle_bool word_duration 0 then highlight_loop (S i) rest clips
      else
        let highlighted_clip :=
          mkTextClip word font_size "#FFD700" "black" 4 "Liberation-Sans-Bold"
                     None None y_position word_duration word_start in
        highlight_loop (S i) rest (clips ++ [highlighted_clip])
  end.

End WordHighlighting.

(** [create_word_highlighting_clips] *)
Definition create_word_highlighting_clips
  (text : string) (start_time end_time : Q) (video_size : video_size_t)
  : list TextClip :=
  let duration := end_time - start_time in
  let words := str_split text in
  match words with
  | [] => []
  | _ :: _ =>
      let time_per_word := duration / Qlen words in
      highlight_loop start_time end_time video_size time_per_word 0 words []
  end.

(** ** The caption segmenter *)

(** [range(start, stop, step)] for a positive step; [fuel] bounds the
    number of elements. *)
Fixpoint range_from (fuel start stop step : nat) : list nat :=
  match fuel with
  | O => []
  | S fuel' =>
      if (start <? stop)%nat
      then start :: range_from fuel' (start + step) stop step
      else []
  end.

Definition range (start stop step : nat) : list nat :=
  range_from (stop - start) start stop step.

(** [xs[i:j]] for [0 <= i <= j]. *)
Definition slice {A : Type} (xs : list A) (i j : nat) : list A :=
  firstn (j - i) (skipn i xs).

Definition max_words : nat := 5.

Section CaptionSegmenting.

Variables (start_time : Q) (duration : Q) (video_size : video_size_t).
Variable words : list string.

Definition caption_clip (txt : string) (clip_duration clip_start : Q)
  : TextClip :=
  let font_size := Z.min 70 (fst video_size / 12) in
  let y_position := inject_Z (snd video_size) * (82 # 100) in
  mkTextClip txt font_size "white" "black" 3 "Liberation-Sans-Bold"
             (Some "caption") (Some (inject_Z (fst video_size) * (9 # 10)))
             y_position clip_duration clip_start.

(** The loop [for i in range(0, len(words), max_words)]. *)
Fixpoint chunk_loop (indices : list nat) (clips : list TextClip)
  : list TextClip :=
  match indices with
  | [] => clips
  | i :: rest =>
      let chunk_words := slice words i (i + max_words) in
      let chunk_text := str_join chunk_words in
      let chunk_duration := duration * Qlen chunk_words / Qlen words in
      let chunk_start := start_time + (duration * Qnat i / Qlen words) in
      chunk_loop rest (clips ++ [caption_clip chunk_text chunk_duration chunk_start])
  end.

End CaptionSegmenting.

(** [create_subtitle_clip] *)
Definition create_subtitle_clip
  (text : string) (start_time end_time : Q) (video_size : video_size_t)
  : list TextClip :=
  let duration := end_time - start_time in
  let words := str_split text in
  if (max_words <? List.length words)%nat then
    chunk_loop start_time duration video_size words
               (range 0 (List.length words) max_words) []
  else
    [caption_clip video_size (str_join words) duration start_time].

(** ** Clipping to the window and assembling the timeline *)

(** The loop [for sub in all_subtitles] that fills [clip_subtitles]. *)
Fixpoint clip_loop (clip_start clip_end : Z) (all_subtitles : list Sub)
  (clip_subtitles : list Sub) : list Sub :=
  let clip_duration := (clip_end - clip_start)%Z in
  match all_subtitles with
  | [] => clip_subtitles
  | sub :: rest =>
      if Qlt_bool (inject_Z clip_start) (sub_end sub)
         && Qlt_bool (sub_start sub) (inject_Z clip_end)
      then
        let adjusted_start := py_max 0 (sub_start sub - inject_Z clip_start) in
        let adjusted_end :=
          py_min (inject_Z clip_duration) (sub_end sub - inject_Z clip_start) in
        if Qlt_bool adjusted_start adjusted_end && Qlt_bool 0 adjusted_end
        then clip_loop clip_start clip_end rest
               (clip_subtitles ++ [mkSub adjusted_start adjusted_end (sub_text sub)])
        else clip_loop clip_start clip_end rest clip_subtitles
      else clip_loop clip_start clip_end rest clip_subtitles
  end.

Definition clip_window (clip_start clip_end : Z) (all_subtitles : list Sub)
  : list Sub :=
  clip_loop clip_start clip_end all_subtitles [].

Record Video : Type := mkVideo {
  video_size : video_size_t;
  video_duration : Q
}.

(** The loop [for i, sub in enumerate(clip_subtitles)] that fills
    [subtitle_clips]. *)
Fixpoint timeline_loop (video : Video) (clip_subtitles : list Sub)
  (subtitle_clips : list TextClip) : list TextClip :=
  match clip_subtitles with
  | [] => subtitle_clips
  | sub :: rest =>
      if Qlt_bool (sub_start sub) (video_duration video)
         && Qle_bool (sub_end sub) (video_duration video)
      then
        let bg_clips :=
          create_subtitle_clip (sub_text sub) (sub_start sub) (sub_end sub)
                               (video_size video) in
        let subtitle_clips := subtitle_clips ++ bg_clips in
        let highlight_clips :=
          create_word_highlighting_clips (sub_text sub) (sub_start sub)
                                         (sub_end sub) (video_size video) in
        let subtitle_clips := subtitle_clips ++ highlight_clips in
        timeline_loop video rest subtitle_clips
      else timeline_loop video rest subtitle_clips
  end.

Definition assemble (video : Video) (clip_subtitles : list Sub) : list TextClip :=
  timeline_loop video clip_subtitles [].

(** ** The engine *)

(** The clip timing read by [json.load]. *)
Record ClipData : Type := mkClipData {
  clip_data_start : string;
  clip_data_end : string
}.

(** What [add_interactive_subtitles_with_timing] hands to
    [write_videofile]. *)
Inductive written : Type :=
| VideoOnly
| Composite (subtitle_clips : list TextClip).

(** [add_interactive_subtitles_with_timing], from the clip timing to the
    clips handed to [write_videofile].  [clip_json] is the outcome of
    opening the clip timing, [json.load] and the two lookups; [video] is
    the clip that [VideoFileClip] has loaded.  The calls of MoviePy
    ([VideoFileClip], [TextClip], [write_videofile]) are taken to return:
    an error of theirs would reach the handler and be raised again, like
    the errors modelled here. *)
Definition add_interactive_subtitles_with_timing
  (video : Video) (srt : file) (clip_json : result ClipData) : result written :=
  try_except
    (clip_data <- clip_json ;;
     clip_start <- time_to_seconds (clip_data_start clip_data) ;;
     clip_end <- time_to_seconds (clip_data_end clip_data) ;;
     all_subtitles <- parse_srt_file srt ;;
     match all_subtitles with
     | [] => Returned VideoOnly
     | _ :: _ =>
         let clip_subtitles := clip_window clip_start clip_end all_subtitles in
         let subtitle_clips := assemble video clip_subtitles in
         match subtitle_clips with
         | [] => Returned VideoOnly
         | _ :: _ => Returned (Composite subtitle_clips)
         end
     end)
    (fun e => Raised e).

(** ** The window clipper as the specification words it *)

Definition adjusted_start (clip_start : Z) (entry : Sub) : Q :=
  Qmax 0 (sub_start entry - inject_Z clip_start).

Definition adjusted_end (clip_start clip_end : Z) (entry : Sub) : Q :=
  Qmin (inject_Z (clip_end - clip_start)) (sub_end entry - inject_Z clip_start).

Definition rebase (clip_start clip_end : Z) (entry : Sub) : Sub :=
  mkSub (adjusted_start clip_start entry)
        (adjusted_end clip_start clip_end entry)
        (sub_text entry).

Definition included (clip_start clip_end : Z) (entry : Sub) : Prop :=
  inject_Z clip_start < sub_end entry
  /\ sub_start entry < inject_Z clip_end
  /\ adjusted_start clip_start entry < adjusted_end clip_start clip_end entry
  /\ 0 < adjusted_end clip_start clip_end entry.

Definition includedb (clip_start clip_end : Z) (entry : Sub) : bool :=
  Qlt_bool (inject_Z clip_start) (sub_end entry)
  && Qlt_bool (sub_start entry) (inject_Z clip_end)
  && Qlt_bool (adjusted_start clip_start entry)
              (adjusted_end clip_start clip_end entry)
  && Qlt_bool 0 (adjusted_end clip_start clip_end entry).

(** ** Blocks of a track *)

(** A block the parser turns into an entry: at least three lines, the
    second of which matches the pattern of the timestamp line. *)
Definition well_formed_block (block : string) : bool :=
  let lines := str_split_on LF (str_strip block) in
  (3 <=? List.length lines)%nat
  && match re_match_timestamps (nth 1 lines ""%string) with
     | Some _ => true
     | None => false
     end.

(** ** The scenario of the specification *)

(** The track with the one block
    [1 / 00:00:02,000 --> 00:00:06,000 / This is a test sentence here]. *)
Definition scenario_track : string :=
  ("1" ++ String LF "00:00:02,000 --> 00:00:06,000"
       ++ String LF "This is a test sentence here")%string.

Definition scenario_text : string := "This is a test sentence here".

Definition scenario_video : Video := mkVideo (1080, 1920)%Z 10.

(** ** Timelines *)

(** The text of a clip and its interval, the times in lowest terms. *)
Definition span (c : TextClip) : string * Q * Q :=
  (clip_txt c, Qred (clip_start c), Qred (clip_end c)).

(** A timeline in the order of the start times. *)
Definition sorted_by_start (timeline : list TextClip) : Prop :=
  forall (i j : nat) (ci cj : TextClip),
    (i < j)%nat ->
    nth_error timeline i = Some ci ->
    nth_error timeline j = Some cj ->
    clip_start ci <= clip_start cj.

(** The test of [timeline_loop] on an entry. *)
Definition within_video (video : Video) (sub : Sub) : bool :=
  Qlt_bool (sub_start sub) (video_duration video)
  && Qle_bool (sub_end sub) (video_duration video).

(** The clips of one entry: its captions, then its highlights. *)
Definition entry_clips (video : Video) (sub : Sub) : list TextClip :=
  create_subtitle_clip (sub_text sub) (sub_start sub) (sub_end sub)
                       (video_size video)
  ++ create_word_highlighting_clips (sub_text sub) (sub_start sub)
                                    (sub_end sub) (video_size video).

(** ** The word highlighter, one clip per word *)

(** The highlight of the word of index [i]. *)
Definition highlight_clip (start_time end_time : Q) (video_size : video_size_t)
  (time_per_word : Q) (i : nat) (word : string) : TextClip :=
  let word_start := start_time + (Qnat i * time_per_word) in
  let word_end :=
    py_min (start_time + (Qnat (i + 1) * time_per_word)) end_time in
  mkTextClip word (Z.min 100 (fst video_size / 10)) "#FFD700" "black" 4
             "Liberation-Sans-Bold" None None
             (inject_Z (snd video_size) * (75 # 100))
             (word_end - word_start) word_start.

Fixpoint highlights_from (start_time end_time : Q) (video_size : video_size_t)
  (time_per_word : Q) (i : nat) (words : list string) : list TextClip :=
  match words with
  | [] => []
  | word :: rest =>
      highlight_clip start_time end_time video_size time_per_word i word
      :: highlights_from start_time end_time video_size time_per_word (S i) rest
  end.

(** ** The caption segmenter, one clip per group *)

(** The caption of the group of words that starts at index [i]. *)
Definition chunk_clip (start_time duration : Q) (video_size : video_size_t)
  (words : list string) (i : nat) : TextClip :=
  let chunk_words := slice words i (i + max_words) in
  caption_clip video_size (str_join chunk_words)
               (duration * Qlen chunk_words / Qlen words)
               (start_time + (duration * Qnat i / Qlen words)).

(** The sum of the durations of a list of clips. *)
Definition total_duration (clips : list TextClip) : Q :=
  fold_right (fun c acc => clip_duration c + acc) 0 clips.

(** ** Fields of a timestamp *)

Fixpoint digits_only (s : string) : bool :=
  match s with
  | EmptyString => true
  | String c s' => isdigit c && digits_only s'
  end.

(** A field made of one or more decimal digits. *)
Definition all_digits (s : string) : bool := nonempty s && digits_only s.

Fixpoint decimal_from (acc : Z) (s : string) : Z :=
  match s with
  | EmptyString => acc
  | String c s' => decimal_from (10 * acc + digit_value c)%Z s'
  end.

(** The number a field of digits denotes. *)
Definition decimal_value (s : string) : Z := decimal_from 0 s.

Fixpoint char_in (c : ascii) (s : string) : Prop :=
  match s with
  | EmptyString => False
  | String d s' => d = c \/ char_in c s'
  end.

Fixpoint count_char (c : ascii) (s : string) : nat :=
  match s with
  | EmptyString => O
  | String d s' => if Ascii.eqb d c then S (count_char c s') else count_char c s'
  end.

(** The characters that can occur in a string [int()] accepts. *)
Definition int_char (c : ascii) : bool :=
  isdigit c || int_space c
  || Ascii.eqb c "+" || Ascii.eqb c "-" || Ascii.eqb c "_".

(** [c * n]: the character repeated. *)
Fixpoint str_repeat (c : ascii) (n : nat) : string :=
  match n with
  | O => EmptyString
  | S k => String c (str_repeat c k)
  end.

(** [HH:MM:SS,mmm] and [HH:MM:SS] from their fields. *)
Definition track_timecode (hh mm ss mmm : string) : string :=
  (hh ++ ":" ++ mm ++ ":" ++ ss ++ "," ++ mmm)%string.

Definition window_timecode (hh mm ss : string) : string :=
  (hh ++ ":" ++ mm ++ ":" ++ ss)%string.

(** ** Strings of a pattern *)

(** [g] has one character per class of [pat], each in its class. *)
Fixpoint in_classes (pat : list (ascii -> bool)) (g : string) : Prop :=
  match pat, g with
  | [], EmptyString => True
  | p :: pat', String c g' => p c = true /\ in_classes pat' g'
  | _, _ => False
  end.

(** ** Words *)

Fixpoint no_space (s : string) : bool :=
  match s with
  | EmptyString => true
  | String c s' => negb (isspace c) && no_space s'
  end.

(** A word: at least one character, none of them white space. *)
Definition is_word (w : string) : bool := nonempty w && no_space w.

(** The words shown by a list of clips, in order. *)
Definition clip_words (clips : list TextClip) : list string :=
  flat_map (fun c => str_split (clip_txt c)) clips.

(** ** Entries of a track *)

Fixpoint last_char (s : string) : option ascii :=
  match s with
  | EmptyString => None
  | String c s' =>
      match s' with
      | EmptyString => Some c
      | String _ _ => last_char s'
      end
  end.

(** A time that is a whole number of milliseconds, not negative. *)
Definition whole_milliseconds (t : Q) : Prop :=
  exists ms : Z, (0 <= ms)%Z /\ t == inject_Z ms / 1000.

(** ** suggest_clip.py: the times of a suggested clip *)

Local Open Scope Z_scope.

(** [convert_time_to_seconds]: [HH:MM:SS], [MM:SS] or a number of seconds.
    With any other number of fields only the first one is read. *)
Definition convert_time_to_seconds (time_str : string) : result Z :=
  let parts := str_split_on ":" time_str in
  match parts with
  | [hours; minutes; seconds] =>
      hours <- int hours ;;
      minutes <- int minutes ;;
      seconds <- int seconds ;;
      Returned (hours * 3600 + minutes * 60 + seconds)
  | [minutes; seconds] =>
      minutes <- int minutes ;;
      seconds <- int seconds ;;
      Returned (minutes * 60 + seconds)
  | _ => int (nth 0 parts ""%string)
  end.

(** [validate_timestamps]: the pair [(is_valid, message)]. *)
Definition validate_timestamps (start_time end_time : string)
  : result (bool * string) :=
  start_seconds <- convert_time_to_seconds start_time ;;
  end_seconds <- convert_time_to_seconds end_time ;;
  if end_seconds <=? start_seconds
  then Returned (false, "Start time must be before end time"%string)
  else
    let duration := end_seconds - start_seconds in
    if duration <? 15
    then Returned (false, "Clip too short (minimum 15 seconds)"%string)
    else if 120 <? duration
    then Returned (false, "Clip too long (maximum 120 seconds)"%string)
    else Returned (true, "Valid"%string).

Local Open Scope Q_scope.

(** ** smart_crop.py: the crop of a frame *)

Local Open Scope Z_scope.

(** [str(n)] of an [int], as the f-string of [calculate_smart_crop] writes
    it. *)
Definition str_of_int (n : Z) : string :=
  DecimalString.NilZero.string_of_int (Z.to_int n).

(** The values [crop_x] and [crop_y] of [calculate_smart_crop].
    [face_center] is what [detect_faces_in_video] returned. *)
Definition crop_offsets (width height : Z) (face_center : option (Z * Z))
  (target_width target_height : Z) : Z * Z :=
  match face_center with
  | Some (face_x, face_y) =>
      let crop_x :=
        Z.max 0 (Z.min (width - target_width) (face_x - target_width / 2)) in
      let crop_y :=
        Z.max 0 (Z.min (height - target_height) (face_y - target_height / 2)) in
      (crop_x, crop_y)
  | None =>
      let crop_x := Z.max 0 ((width - target_width) / 2) in
      let crop_y := Z.max 0 ((height - target_height) / 2) in
      (crop_x, crop_y)
  end.

(** [calculate_smart_crop]: the crop filter.  [capture] is the size of the
    frames when the video could be opened. *)
Definition calculate_smart_crop (capture : option (Z * Z))
  (face_center : option (Z * Z)) (target_width target_height : Z) : string :=
  match capture with
  | None => "crop=1080:1920:420:0"%string
  | Some (width, height) =>
      let (crop_x, crop_y) :=
        crop_offsets width height face_center target_width target_height in
      ("crop=" ++ str_of_int target_width ++ ":" ++ str_of_int target_height
       ++ ":" ++ str_of_int crop_x ++ ":" ++ str_of_int crop_y)%string
  end.

Local Open Scope Q_scope.

(** ** suggest_clip.py: the text of a track *)

(** The loop [for block in blocks] of [extract_text_from_srt]. *)
Fixpoint extract_loop (blocks : list string) (text_lines : list string)
  : list string :=
  match blocks with
  | [] => text_lines
  | block :: rest =>
      let lines := str_split_on LF (str_strip block) in
      if (3 <=? List.length lines)%nat then
        let text := str_strip (str_join (skipn 2 lines)) in
        if nonempty text
        then extract_loop rest (text_lines ++ [text])
        else extract_loop rest text_lines
      else extract_loop rest text_lines
  end.

(** [extract_text_from_srt] *)
Definition extract_text_from_srt (srt_content : string) : string :=
  let blocks := re_split_blank (str_strip srt_content) in
  str_join (extract_loop blocks []).

(** A block of three lines or more has a timestamp line that matches. *)
Definition timestamped_block (block : string) : bool :=
  let lines := str_split_on LF (str_strip block) in
  negb (3 <=? List.length lines)%nat || well_formed_block block.

(** ** The names of the files *)

(** [s.endswith(suffix)] *)
Definition str_endswith (s suffix : string) : bool :=
  (String.length suffix <=? String.length s)%nat
  && String.eqb (substring (String.length s - String.length suffix)
                           (String.length suffix) s)
                suffix.

(** [s[:-n]] for a positive [n] *)
Definition str_drop_last (n : nat) (s : string) : string :=
  substring 0 (String.length s - n) s.

(** The name [base_name] that [process_short_video] derives from the stem
    of the path of the video. *)
Definition base_name_of (video_name : string) : string :=
  if str_endswith video_name "_short"
  then str_drop_last 6 video_name
  else video_name.

(** The name of the file that [process_short_video] writes. *)
Definition output_name (base_name : string) : string :=
  (base_name ++ "_with_subtitles.mp4")%string.

(** The names that the pattern ["*_short.mp4"] of [main] selects. *)
Definition is_short_video (name : string) : bool :=
  str_endswith name "_short.mp4".

(** ** Order of the entries *)

(** Entries in the order of their start times. *)
Definition ordered_by_start (subtitles : list Sub) : Prop :=
  StronglySorted (fun a b => sub_start a <= sub_start b) subtitles.

(** ** The two clip makers over binary64

    The times of the script are Python floats.  [Binary64] repeats the two
    clip makers over the binary64 numbers of the kernel, operation by
    operation and in the order of the source, for the statements on which
    rounding bears: whether a computed end is the end of the entry, and
    whether a word is skipped. *)

Module Binary64.

Local Open Scope float_scope.

(** An [int] operand of a float operation; exact below [2 ^ 53]. *)
Fixpoint float_of_pos (p : positive) : float :=
  match p with
  | xH => 1
  | xO q => 2 * float_of_pos q
  | xI q => 2 * float_of_pos q + 1
  end.

Definition float_of_Z (z : Z) : float :=
  match z with
  | Z0 => 0
  | Zpos p => float_of_pos p
  | Zneg p => - float_of_pos p
  end.

Definition float_of_nat (n : nat) : float := float_of_Z (Z.of_nat n).

(** [len(xs)] where a time is multiplied or divided by it. *)
Definition float_len {A : Type} (xs : list A) : float :=
  float_of_nat (List.length xs).

(** [min(a, b)]: [b] when it is less than [a], else [a]. *)
Definition py_min (a b : float) : float := if b <? a then b else a.

Record TextClip : Type := mkTextClip {
  clip_txt : string;
  clip_fontsize : Z;
  clip_color : string;
  clip_stroke_color : string;
  clip_stroke_width : Z;
  clip_font : string;
  clip_method : option string;
  clip_size : option float;      (* width of the caption box *)
  clip_pos_y : float;            (* set_position(('center', y)) *)
  clip_duration : float;         (* set_duration *)
  clip_start : float             (* set_start *)
}.

(** MoviePy keeps [end = start + duration] through [set_duration] and
    [set_start]. *)
Definition clip_end (c : TextClip) : float := clip_start c + clip_duration c.

Section WordHighlighting.

Variables (start_time end_time : float) (video_size : video_size_t).
Variable time_per_word : float.

Let font_size : Z := Z.min 100 (fst video_size / 10)%Z.
(* 0.75 *)
Let y_position : float := float_of_Z (snd video_size) * 0x1.8p-1.

(** The loop [for i, word in enumerate(words)], from index [i] on. *)
Fixpoint highlight_loop (i : nat) (words : list string) (clips : list TextClip)
  : list TextClip :=
  match words with
  | [] => clips
  | word :: rest =>
      let word_start := start_time + (float_of_nat i * time_per_word) in
      let word_end :=
        py_min (start_time + (float_of_nat (i + 1)%nat * time_per_word))
               end_time in
      let word_duration := word_end - word_start in
      if word_duration <=? 0 then highlight_loop (S i) rest clips
      else
        let highlighted_clip :=
          mkTextClip word font_size "#FFD700" "black" 4%Z "Liberation-Sans-Bold"
                     None None y_position word_duration word_start in
        highlight_loop (S i) rest (clips ++ [highlighted_clip])
  end.

End WordHighlighting.

(** [create_word_highlighting_clips] *)
Definition create_word_highlighting_clips
  (text : string) (start_time end_time : float) (video_size : video_size_t)
  : list TextClip :=
  let duration := end_time - start_time in
  let words := str_split text in
  match words with
  | [] => []
  | _ :: _ =>
      let time_per_word := duration / float_len words in
      highlight_loop start_time end_time video_size time_per_word 0 words []
  end.

Section CaptionSegmenting.

Variables (start_time : float) (duration : float) (video_size : video_size_t).
Variable words : list string.

Definition caption_clip (txt : string) (clip_duration clip_start : float)
  : TextClip :=
  let font_size := Z.min 70 (fst video_size / 12)%Z in
  (* 0.82 *)
  let y_position := float_of_Z (snd video_size) * 0x1.a3d70a3d70a3dp-1 in
  (* 0.9 *)
  mkTextClip txt font_size "white" "black" 3%Z "Liberation-Sans-Bold"
             (Some "caption"%string)
             (Some (float_of_Z (fst video_size) * 0x1.ccccccccccccdp-1))
             y_position clip_duration clip_start.

(** The loop [for i in range(0, len(words), max_words)]. *)
Fixpoint chunk_loop (indices : list nat) (clips : list TextClip)
  : list TextClip :=
  match indices with
  | [] => clips
  | i :: rest =>
      let chunk_words := slice words i (i + max_words)%nat in
      let chunk_text := str_join chunk_words in
      let chunk_duration := duration * float_len chunk_words / float_len words in
      let chunk_start := start_time + (duration * float_of_nat i / float_len words) in
      chunk_loop rest (clips ++ [caption_clip chunk_text chunk_duration chunk_start])
  end.

End CaptionSegmenting.

(** [create_subtitle_clip] *)
Definition create_subtitle_clip
  (text : string) (start_time end_time : float) (video_size : video_size_t)
  : list TextClip :=
  let duration := end_time - start_time in
  let words := str_split text in
  if (max_words <? List.length words)%nat then
    chunk_loop start_time duration video_size words
               (range 0 (List.length words) max_words) []
  else
    [caption_clip video_size (str_join words) duration start_time].

(** The text of a clip with its start, its duration and its end. *)
Definition times (c : TextClip) : string * float * float * float :=
  (clip_txt c, clip_start c, clip_duration c, clip_end c).

Local Close Scope float_scope.

End Binary64.

(** * Properties *)

(** ** Comparisons *)

Lemma Qlt_bool_iff (x y : Q) : Qlt_bool x y = true <-> x < y.
Proof.
  unfold Qlt_bool. rewrite negb_true_iff.
  destruct (Qle_bool y x) eqn:E.
  - apply Qle_bool_iff in E. split; [discriminate | intros H; exfalso; lra].
  - split; [intros _ | reflexivity].
    destruct (Qlt_le_dec x y) as [H | H]; [exact H |].
    apply Qle_bool_iff in H. congruence.
Qed.

Lemma Qlt_bool_false_iff (x y : Q) : Qlt_bool x y = false <-> y <= x.
Proof.
  unfold Qlt_bool. rewrite negb_false_iff. apply Qle_bool_iff.
Qed.

Lemma py_max_Qmax (a b : Q) : py_max a b = Qmax a b.
Proof.
  unfold py_max, Qmax, GenericMinMax.gmax.
  destruct (Qlt_bool a b) eqn:E.
  - apply Qlt_bool_iff in E.
    destruct (Qcompare_spec a b) as [H | H | H]; try reflexivity; exfalso; lra.
  - apply Qlt_bool_false_iff in E.
    destruct (Qcompare_spec a b) as [H | H | H]; try reflexivity; exfalso; lra.
Qed.

Lemma py_min_Qmin (a b : Q) : py_min a b = Qmin a b.
Proof.
  unfold py_min, Qmin, GenericMinMax.gmin.
  destruct (Qlt_bool b a) eqn:E.
  - apply Qlt_bool_iff in E.
    destruct (Qcompare_spec a b) as [H | H | H]; try reflexivity; exfalso; lra.
  - apply Qlt_bool_false_iff in E.
    destruct (Qcompare_spec a b) as [H | H | H]; try reflexivity; exfalso; lra.
Qed.

Lemma Qmax_cases (a b : Q) : (a < b /\ Qmax a b = b) \/ (b <= a /\ Qmax a b = a).
Proof.
  rewrite <- py_max_Qmax. unfold py_max.
  destruct (Qlt_bool a b) eqn:E.
  - left. split; [now apply Qlt_bool_iff | reflexivity].
  - right. split; [now apply Qlt_bool_false_iff | reflexivity].
Qed.

Lemma Qmin_cases (a b : Q) : (b < a /\ Qmin a b = b) \/ (a <= b /\ Qmin a b = a).
Proof.
  rewrite <- py_min_Qmin. unfold py_min.
  destruct (Qlt_bool b a) eqn:E.
  - left. split; [now apply Qlt_bool_iff | reflexivity].
  - right. split; [now apply Qlt_bool_false_iff | reflexivity].
Qed.

(** ** The window clipper *)

Lemma includedb_iff (clip_start clip_end : Z) (entry : Sub) :
  includedb clip_start clip_end entry = true <-> included clip_start clip_end entry.
Proof.
  unfold includedb, included.
  rewrite !andb_true_iff, !Qlt_bool_iff. tauto.
Qed.

(** The loop appends, in the order of the input, the re-based entries that
    pass both tests. *)
Lemma clip_loop_filter (clip_start clip_end : Z) (all_subtitles acc : list Sub) :
  clip_loop clip_start clip_end all_subtitles acc
  = acc ++ map (rebase clip_start clip_end)
               (filter (includedb clip_start clip_end) all_subtitles).
Proof.
  revert acc. induction all_subtitles as [| sub rest IH]; intros acc.
  - simpl. now rewrite app_nil_r.
  - cbn [clip_loop filter]. cbv zeta.
    set (a_start := py_max 0 (sub_start sub - inject_Z clip_start)).
    set (a_end := py_min (inject_Z (clip_end - clip_start))
                         (sub_end sub - inject_Z clip_start)).
    assert (Hinc : includedb clip_start clip_end sub
                   = Qlt_bool (inject_Z clip_start) (sub_end sub)
                     && Qlt_bool (sub_start sub) (inject_Z clip_end)
                     && (Qlt_bool a_start a_end && Qlt_bool 0 a_end)).
    { unfold includedb, adjusted_start, adjusted_end.
      rewrite <- py_max_Qmax, <- py_min_Qmin. now rewrite andb_assoc. }
    assert (Hreb : rebase clip_start clip_end sub
                   = mkSub a_start a_end (sub_text sub)).
    { unfold rebase, adjusted_start, adjusted_end.
      now rewrite <- py_max_Qmax, <- py_min_Qmin. }
    rewrite Hinc.
    destruct (Qlt_bool (inject_Z clip_start) (sub_end sub)
              && Qlt_bool (sub_start sub) (inject_Z clip_end));
      cbn [andb]; [| apply IH].
    destruct (Qlt_bool a_start a_end && Qlt_bool 0 a_end); [| apply IH].
    cbn [map]. rewrite IH, <- app_assoc, Hreb. reflexivity.
Qed.

Lemma included_bounds (clip_start clip_end : Z) (entry : Sub) :
  included clip_start clip_end entry ->
  0 <= adjusted_start clip_start entry
  /\ adjusted_start clip_start entry < adjusted_end clip_start clip_end entry
  /\ adjusted_end clip_start clip_end entry <= inject_Z (clip_end - clip_start).
Proof.
  unfold included, adjusted_start, adjusted_end.
  intros (_ & _ & Hlt & _).
  destruct (Qmax_cases 0 (sub_start entry - inject_Z clip_start))
    as [[H1 E1] | [H1 E1]];
    destruct (Qmin_cases (inject_Z (clip_end - clip_start))
                         (sub_end entry - inject_Z clip_start))
      as [[H2 E2] | [H2 E2]];
    rewrite E1, E2 in *; repeat split; lra.
Qed.

Lemma empty_window_excludes (clip_start clip_end : Z) (entry : Sub) :
  (clip_end <= clip_start)%Z -> includedb clip_start clip_end entry = false.
Proof.
  intros Hw. destruct (includedb clip_start clip_end entry) eqn:E; [| reflexivity].
  apply includedb_iff in E. destruct E as (_ & _ & _ & Hpos).
  unfold adjusted_end in Hpos.
  assert (Hd : inject_Z (clip_end - clip_start) <= 0).
  { change 0 with (inject_Z 0). rewrite <- Zle_Qle. lia. }
  destruct (Qmin_cases (inject_Z (clip_end - clip_start))
                       (sub_end entry - inject_Z clip_start))
    as [[H2 E2] | [H2 E2]]; rewrite E2 in Hpos; exfalso; lra.
Qed.

Lemma filter_all_false {A : Type} (f : A -> bool) (xs : list A) :
  (forall x, f x = false) -> filter f xs = [].
Proof.
  intros Hf. induction xs as [| x xs IH]; simpl; [reflexivity |].
  now rewrite Hf.
Qed.

Lemma clip_window_empty (clip_start clip_end : Z) (all_subtitles : list Sub) :
  (clip_end <= clip_start)%Z -> clip_window clip_start clip_end all_subtitles = [].
Proof.
  intros Hw. unfold clip_window. rewrite clip_loop_filter. simpl.
  rewrite filter_all_false; [reflexivity |].
  intros entry. now apply empty_window_excludes.
Qed.

(** C3.  For a window with [clip_start < clip_end], the window clipper
    emits, in the order of the input, the re-based entry of exactly those
    entries with [end > clip_start], [start < clip_end],
    [adjusted_end > adjusted_start] and [adjusted_end > 0], where
    [adjusted_start = max(0, start - clip_start)] and
    [adjusted_end = min(clip_duration, end - clip_start)]; an entry that
    ends at [clip_start] or starts at [clip_end] is not emitted. *)
Theorem window_clipper_emits_iff
  (clip_start clip_end : Z) (all_subtitles : list Sub) :
  (clip_start < clip_end)%Z ->
  clip_window clip_start clip_end all_subtitles
  = map (rebase clip_start clip_end)
        (filter (includedb clip_start clip_end) all_subtitles)
  /\ (forall entry,
         includedb clip_start clip_end entry = true
         <-> included clip_start clip_end entry)
  /\ (forall entry,
         sub_end entry == inject_Z clip_start ->
         includedb clip_start clip_end entry = false)
  /\ (forall entry,
         sub_start entry == inject_Z clip_end ->
         includedb clip_start clip_end entry = false).
Proof.
  intros _. split; [| split; [| split]].
  - unfold clip_window. now rewrite clip_loop_filter.
  - intros entry. apply includedb_iff.
  - intros entry Hend.
    destruct (includedb clip_start clip_end entry) eqn:E; [| reflexivity].
    apply includedb_iff in E. destruct E as (H & _). exfalso. lra.
  - intros entry Hstart.
    destruct (includedb clip_start clip_end entry) eqn:E; [| reflexivity].
    apply includedb_iff in E. destruct E as (_ & H & _). exfalso. lra.
Qed.

Lemma window_clipper_emits_iff_witness :
  clip_window 5 15 [mkSub 0 3 "a"; mkSub 3 5 "b"; mkSub 4 6 "c";
                    mkSub 15 16 "d"; mkSub 14 17 "e"]
  = map (rebase 5 15)
        (filter (includedb 5 15)
                [mkSub 0 3 "a"; mkSub 3 5 "b"; mkSub 4 6 "c";
                 mkSub 15 16 "d"; mkSub 14 17 "e"]).
Proof.
  apply (window_clipper_emits_iff 5 15). reflexivity.
Defined.

(** C4.  For a window with [clip_start < clip_end], every entry the window
    clipper emits has [0 <= start < end <= clip_duration], and its text is
    the text of an entry of the input, unchanged. *)
Theorem clipped_entry_invariant
  (clip_start clip_end : Z) (all_subtitles : list Sub) (clipped : Sub) :
  (clip_start < clip_end)%Z ->
  In clipped (clip_window clip_start clip_end all_subtitles) ->
  (0 <= sub_start clipped
   /\ sub_start clipped < sub_end clipped
   /\ sub_end clipped <= inject_Z (clip_end - clip_start))
  /\ exists entry,
       In entry all_subtitles
       /\ clipped = rebase clip_start clip_end entry
       /\ sub_text clipped = sub_text entry.
Proof.
  intros _ Hin. unfold clip_window in Hin.
  rewrite clip_loop_filter in Hin. simpl in Hin.
  apply in_map_iff in Hin. destruct Hin as (entry & <- & Hf).
  apply filter_In in Hf. destruct Hf as (Hentry & Hinc).
  apply includedb_iff in Hinc. split.
  - simpl. now apply included_bounds.
  - exists entry. repeat split; assumption.
Qed.

Lemma clipped_entry_invariant_witness :
  (0 <= 0 /\ 0 < 6 - 5 /\ 6 - 5 <= inject_Z (15 - 5))
  /\ exists entry,
       In entry [mkSub 0 3 "a"; mkSub 4 6 "c"]
       /\ mkSub 0 (6 - 5) "c" = rebase 5 15 entry
       /\ "c"%string = sub_text entry.
Proof.
  apply (clipped_entry_invariant 5 15 [mkSub 0 3 "a"; mkSub 4 6 "c"]
                                 (mkSub 0 (6 - 5) "c")).
  - reflexivity.
  - left. reflexivity.
Defined.

(** ** The transcript parser *)

Lemma parse_srt_file_returns (srt : file) :
  exists subtitles, parse_srt_file srt = Returned subtitles.
Proof.
  unfold parse_srt_file, try_except.
  destruct (parse_srt_body srt) as [subtitles | e]; eauto.
Qed.

Lemma parse_blocks_malformed (blocks : list string) (subtitles : list Sub) :
  (forall block, In block blocks -> well_formed_block block = false) ->
  parse_blocks blocks subtitles = Returned subtitles.
Proof.
  induction blocks as [| block rest IH]; intros Hbad; [reflexivity |].
  assert (Hb : well_formed_block block = false) by (apply Hbad; now left).
  assert (Hrest : parse_blocks rest subtitles = Returned subtitles)
    by (apply IH; intros b Hb'; apply Hbad; now right).
  unfold well_formed_block in Hb. cbn [parse_blocks]. cbv zeta.
  destruct (3 <=? List.length (str_split_on LF (str_strip block)))%nat;
    [| exact Hrest].
  destruct (re_match_timestamps
              (nth 1 (str_split_on LF (str_strip block)) ""%string))
    as [[start_time end_time] |]; [discriminate | exact Hrest].
Qed.

(** C10.  The transcript parser never raises: for every input it returns a
    list of entries.  An unreadable file, an empty track and a track whose
    blocks are all malformed give the empty list, so the value returned for
    a failure is the value returned for an empty transcript. *)
Theorem parse_srt_file_never_raises :
  (forall srt, exists subtitles, parse_srt_file srt = Returned subtitles)
  /\ (forall e, parse_srt_file (Unreadable e) = Returned [])
  /\ parse_srt_file (Contents "") = Returned []
  /\ (forall content,
         (forall block,
             In block (re_split_blank (str_strip content)) ->
             well_formed_block block = false) ->
         parse_srt_file (Contents content) = Returned [])
  /\ (forall e, parse_srt_file (Unreadable e) = parse_srt_file (Contents "")).
Proof.
  split; [exact parse_srt_file_returns |].
  split; [reflexivity |].
  split; [reflexivity |].
  split; [| reflexivity].
  intros content Hbad.
  unfold parse_srt_file, parse_srt_body, read.
  now rewrite parse_blocks_malformed.
Qed.

(** ** The engine on a window that is empty or reversed *)




(** ** The caption segmenter on a text without words *)



(** ** The scenario *)

(** C2, counterexample.  On the entry of the scenario the first caption
    ends, and the second starts, at 16/3 s: five sixths of the four seconds
    after 2 s, and not 5.6 s. *)
Lemma scenario_captions_not_at_5_6 :
  exists c1 c2,
    create_subtitle_clip scenario_text 2 6 (1080, 1920)%Z = [c1; c2]
    /\ clip_txt c1 = "This is a test sentence"%string
    /\ clip_end c1 == 16 # 3
    /\ clip_start c2 == 16 # 3
    /\ ~ clip_end c1 == 5.6
    /\ ~ clip_start c2 == 5.6.
Proof.
  eexists. eexists. split; [vm_compute; reflexivity |].
  repeat split; try reflexivity; vm_compute; discriminate.
Qed.

(** C2, as the code has it.  On the entry of the scenario, from 2 s to 6 s
    with six words, the caption segmenter gives two captions,
    ["This is a test sentence"] on [2, 16/3) and ["here"] on [16/3, 6), and
    the word highlighter gives six highlights, one per word, each 4/6 s
    long and within [2, 6]; the engine, with the window from 0 s to 10 s,
    composes these eight clips. *)
Theorem scenario_segments (video_size : video_size_t) :
  map span (create_subtitle_clip scenario_text 2 6 video_size)
  = [("This is a test sentence"%string, 2, 16 # 3);
     ("here"%string, 16 # 3, 6)]
  /\ map span (create_word_highlighting_clips scenario_text 2 6 video_size)
     = [("This"%string, 2, 8 # 3); ("is"%string, 8 # 3, 10 # 3);
        ("a"%string, 10 # 3, 4); ("test"%string, 4, 14 # 3);
        ("sentence"%string, 14 # 3, 16 # 3); ("here"%string, 16 # 3, 6)]
  /\ Forall (fun c => clip_duration c == 4 / 6
                      /\ 2 <= clip_start c /\ clip_end c <= 6)
            (create_word_highlighting_clips scenario_text 2 6 video_size)
  /\ exists timeline,
       add_interactive_subtitles_with_timing
         scenario_video (Contents scenario_track)
         (Returned (mkClipData "00:00:00" "00:00:10"))
       = Returned (Composite timeline)
       /\ map span timeline
          = map span (create_subtitle_clip scenario_text 2 6 video_size)
            ++ map span (create_word_highlighting_clips scenario_text 2 6
                                                        video_size).
Proof.
  split; [vm_compute; reflexivity |].
  split; [vm_compute; reflexivity |].
  split.
  - vm_compute. repeat constructor; discriminate.
  - eexists. split; [vm_compute; reflexivity |]. vm_compute. reflexivity.
Qed.

(** ** The timeline *)

Lemma timeline_loop_flat_map (video : Video) (clip_subtitles : list Sub)
  (subtitle_clips : list TextClip) :
  timeline_loop video clip_subtitles subtitle_clips
  = subtitle_clips
    ++ flat_map (entry_clips video) (filter (within_video video) clip_subtitles).
Proof.
  revert subtitle_clips.
  induction clip_subtitles as [| sub rest IH]; intros subtitle_clips.
  - simpl. now rewrite app_nil_r.
  - cbn [timeline_loop filter]. cbv zeta. fold (within_video video sub).
    destruct (within_video video sub); [| apply IH].
    cbn [flat_map]. rewrite IH. unfold entry_clips.
    now rewrite <- !app_assoc.
Qed.

(** C6, counterexample.  The timeline of the entry of the scenario is not
    in the order of the start times: the second caption starts at 16/3 s
    and stands before the first highlight, which starts at 2 s. *)
Lemma scenario_timeline_not_sorted :
  ~ sorted_by_start (assemble scenario_video [mkSub 2 6 scenario_text]).
Proof.
  intros Hsorted.
  assert (H := Hsorted 1%nat 2%nat _ _ (Nat.lt_succ_diag_r 1) eq_refl eq_refl).
  vm_compute in H. apply H. reflexivity.
Qed.

(** C6, as the code has it.  The timeline is a concatenation and is not
    sorted: it lists the entries that lie within the video in the order of
    the input, and for each of them its captions followed by its
    highlights. *)
Theorem timeline_in_input_order (video : Video) (clip_subtitles : list Sub) :
  assemble video clip_subtitles
  = flat_map
      (fun sub =>
         create_subtitle_clip (sub_text sub) (sub_start sub) (sub_end sub)
                              (video_size video)
         ++ create_word_highlighting_clips (sub_text sub) (sub_start sub)
                                           (sub_end sub) (video_size video))
      (filter
         (fun sub =>
            Qlt_bool (sub_start sub) (video_duration video)
            && Qle_bool (sub_end sub) (video_duration video))
         clip_subtitles).
Proof.
  unfold assemble. rewrite timeline_loop_flat_map. reflexivity.
Qed.

(** ** Word counts as times *)

Lemma Qnat_succ (i : nat) : Qnat (i + 1) == Qnat i + 1.
Proof.
  unfold Qnat. rewrite Nat2Z.inj_add, inject_Z_plus. reflexivity.
Qed.

Lemma Qnat_add (i j : nat) : Qnat (i + j) == Qnat i + Qnat j.
Proof.
  unfold Qnat. rewrite Nat2Z.inj_add, inject_Z_plus. reflexivity.
Qed.

Lemma Qnat_le (i j : nat) : (i <= j)%nat -> Qnat i <= Qnat j.
Proof.
  intros H. unfold Qnat. rewrite <- Zle_Qle. lia.
Qed.

Lemma Qnat_nonneg (i : nat) : 0 <= Qnat i.
Proof.
  change 0 with (Qnat 0). apply Qnat_le. lia.
Qed.

Lemma Qnat_pos (i : nat) : (0 < i)%nat -> 0 < Qnat i.
Proof.
  intros H. unfold Qnat. change 0 with (inject_Z 0). rewrite <- Zlt_Qlt. lia.
Qed.

Lemma Qlen_Qnat {A : Type} (xs : list A) : Qlen xs = Qnat (List.length xs).
Proof. reflexivity. Qed.

(** ** The word highlighter *)

Lemma match_nonempty {A B : Type} (xs : list A) (x y : B) :
  xs <> [] ->
  match xs with
  | [] => x
  | _ :: _ => y
  end = y.
Proof.
  destruct xs; [contradiction | reflexivity].
Qed.

Section HighlightProperties.

Variables (start_time end_time : Q) (video_size : video_size_t).
Variable time_per_word : Q.
Hypothesis time_per_word_pos : 0 < time_per_word.

Let clip_at := highlight_clip start_time end_time video_size time_per_word.

Lemma word_end_unclamped (i : nat) :
  start_time + Qnat (i + 1) * time_per_word <= end_time ->
  py_min (start_time + Qnat (i + 1) * time_per_word) end_time
  = start_time + Qnat (i + 1) * time_per_word.
Proof.
  intros H. unfold py_min.
  destruct (Qlt_bool end_time _) eqn:E; [| reflexivity].
  apply Qlt_bool_iff in E. exfalso. lra.
Qed.

(** While the raw upper bounds stay within the entry, no word is skipped. *)
Lemma highlight_loop_all (words : list string) :
  forall (i : nat) (clips : list TextClip),
    start_time + Qnat (i + List.length words) * time_per_word <= end_time ->
    highlight_loop start_time end_time video_size time_per_word i words clips
    = clips ++ highlights_from start_time end_time video_size time_per_word
                               i words.
Proof.
  induction words as [| word rest IH]; intros i clips Hfit.
  - simpl. now rewrite app_nil_r.
  - cbn [highlight_loop highlights_from]. cbv zeta.
    assert (Hi : start_time + Qnat (i + 1) * time_per_word <= end_time).
    { assert (Hle : Qnat (i + 1) <= Qnat (i + List.length (word :: rest)))
        by (apply Qnat_le; simpl; lia).
      apply (Qmult_le_compat_r _ _ time_per_word) in Hle; lra. }
    rewrite (word_end_unclamped i Hi).
    assert (Hd : Qle_bool (start_time + Qnat (i + 1) * time_per_word
                           - (start_time + Qnat i * time_per_word)) 0 = false).
    { destruct (Qle_bool _ 0) eqn:E; [| reflexivity].
      apply Qle_bool_iff in E. rewrite Qnat_succ in E. exfalso. lra. }
    rewrite Hd, IH.
    + rewrite <- app_assoc. cbn [app]. unfold highlight_clip.
      now rewrite (word_end_unclamped i Hi).
    + replace (S i + List.length rest)%nat
        with (i + List.length (word :: rest))%nat by (simpl; lia).
      exact Hfit.
Qed.

Lemma nth_error_highlights_from (words : list string) :
  forall (i k : nat),
    nth_error (highlights_from start_time end_time video_size time_per_word
                               i words) k
    = option_map (clip_at (i + k)) (nth_error words k).
Proof.
  induction words as [| word rest IH]; intros i k.
  - now destruct k.
  - destruct k as [| k]; cbn [highlights_from nth_error option_map].
    + now rewrite Nat.add_0_r.
    + rewrite IH. now rewrite Nat.add_succ_comm.
Qed.

Lemma length_highlights_from (words : list string) (i : nat) :
  List.length (highlights_from start_time end_time video_size time_per_word
                               i words)
  = List.length words.
Proof.
  revert i. induction words as [| word rest IH]; intros i; simpl;
    [reflexivity | now rewrite IH].
Qed.

End HighlightProperties.

Section HighlightIntervals.

Variables (start_time end_time : Q) (video_size : video_size_t).
Variable words : list string.
Hypothesis words_nonempty : words <> [].
Hypothesis positive_duration : start_time < end_time.

Let time_per_word : Q := (end_time - start_time) / Qlen words.
Let clip_at := highlight_clip start_time end_time video_size time_per_word.

Lemma Qlen_words_pos : 0 < Qlen words.
Proof.
  rewrite Qlen_Qnat. apply Qnat_pos.
  destruct words; [contradiction | simpl; lia].
Qed.

Lemma time_per_word_pos : 0 < time_per_word.
Proof.
  unfold time_per_word. apply Qlt_shift_div_l; [apply Qlen_words_pos | lra].
Qed.

Lemma words_fill_duration :
  Qlen words * time_per_word == end_time - start_time.
Proof.
  unfold time_per_word. field.
  pose proof Qlen_words_pos. lra.
Qed.

Lemma raw_bound_within (i : nat) :
  (i < List.length words)%nat ->
  start_time + Qnat (i + 1) * time_per_word <= end_time.
Proof.
  intros Hi.
  assert (Hle : Qnat (i + 1) <= Qlen words)
    by (rewrite Qlen_Qnat; apply Qnat_le; lia).
  apply (Qmult_le_compat_r _ _ time_per_word) in Hle;
    [| apply Qlt_le_weak, time_per_word_pos].
  rewrite words_fill_duration in Hle. lra.
Qed.

Lemma highlight_clip_interval (i : nat) (word : string) :
  (i < List.length words)%nat ->
  clip_start (clip_at i word) == start_time + Qnat i * time_per_word
  /\ clip_end (clip_at i word)
     == Qmin (start_time + Qnat (i + 1) * time_per_word) end_time
  /\ clip_end (clip_at i word) == start_time + Qnat (i + 1) * time_per_word
  /\ start_time <= clip_start (clip_at i word)
  /\ clip_end (clip_at i word) <= end_time
  /\ 0 < clip_duration (clip_at i word).
Proof.
  intros Hi.
  pose proof (raw_bound_within i Hi) as Hfit.
  pose proof time_per_word_pos as Hpos.
  pose proof (Qnat_nonneg i) as Hnat.
  pose proof (Qnat_succ i) as Hsucc.
  assert (Hprod : 0 <= Qnat i * time_per_word)
    by (apply Qmult_le_0_compat; lra).
  unfold clip_at, clip_end, highlight_clip. cbn [clip_start clip_duration].
  rewrite <- py_min_Qmin, (word_end_unclamped _ _ _ _ Hfit).
  repeat split; try lra.
  rewrite Hsucc. lra.
Qed.

Lemma highlights_are_all_words (text : string) :
  str_split text = words ->
  create_word_highlighting_clips text start_time end_time video_size
  = highlights_from start_time end_time video_size time_per_word 0 words.
Proof.
  intros Hsplit. unfold create_word_highlighting_clips. rewrite Hsplit.
  etransitivity; [apply match_nonempty, words_nonempty |].
  rewrite highlight_loop_all; [reflexivity | apply time_per_word_pos |].
  cbn [Nat.add]. pose proof words_fill_duration as Hfill.
  rewrite Qlen_Qnat in Hfill. unfold time_per_word in Hfill. lra.
Qed.

End HighlightIntervals.



(** ** The caption segmenter *)

(** [range(start, stop, step)] holds [start + j * step] at index [j], as
    long as that is below [stop]. *)
Lemma nth_error_range_from (step stop : nat) :
  (0 < step)%nat ->
  forall (fuel start j : nat),
    (stop - start <= fuel)%nat ->
    nth_error (range_from fuel start stop step) j
    = if (start + j * step <? stop)%nat then Some (start + j * step)%nat
      else None.
Proof.
  intros Hstep. induction fuel as [| fuel IH]; intros start j Hfuel.
  - cbn [range_from].
    replace (start + j * step <? stop)%nat with false
      by (symmetry; apply Nat.ltb_ge; lia).
    now destruct j.
  - cbn [range_from]. destruct (start <? stop)%nat eqn:E.
    + apply Nat.ltb_lt in E. destruct j as [| j]; cbn [nth_error].
      * replace (start + 0 * step <? stop)%nat with true
          by (symmetry; apply Nat.ltb_lt; lia).
        f_equal. lia.
      * rewrite IH by lia.
        replace (start + step + j * step)%nat with (start + S j * step)%nat
          by lia.
        reflexivity.
    + apply Nat.ltb_ge in E.
      replace (start + j * step <? stop)%nat with false
        by (symmetry; apply Nat.ltb_ge; lia).
      now destruct j.
Qed.

Lemma nth_error_range (stop step j : nat) :
  (0 < step)%nat ->
  nth_error (range 0 stop step) j
  = if (j * step <? stop)%nat then Some (j * step)%nat else None.
Proof.
  intros Hstep. unfold range.
  rewrite (nth_error_range_from step stop Hstep) by lia. reflexivity.
Qed.

Lemma length_slice {A : Type} (xs : list A) (i k : nat) :
  List.length (slice xs i (i + k)) = Nat.min k (List.length xs - i).
Proof.
  unfold slice. rewrite length_firstn, length_skipn.
  replace (i + k - i)%nat with k by lia. reflexivity.
Qed.

Section CaptionProperties.

Variables (start_time duration : Q) (video_size : video_size_t).
Variable words : list string.

Let clip_at := chunk_clip start_time duration video_size words.

Lemma chunk_loop_map (indices : list nat) (clips : list TextClip) :
  chunk_loop start_time duration video_size words indices clips
  = clips ++ map clip_at indices.
Proof.
  revert clips. induction indices as [| i rest IH]; intros clips.
  - simpl. now rewrite app_nil_r.
  - cbn [chunk_loop map]. cbv zeta. rewrite IH, <- app_assoc. reflexivity.
Qed.

Lemma nth_error_chunks (j : nat) :
  nth_error (map clip_at (range 0 (List.length words) max_words)) j
  = if (j * max_words <? List.length words)%nat
    then Some (clip_at (j * max_words)%nat)
    else None.
Proof.
  rewrite nth_error_map, nth_error_range by (unfold max_words; lia).
  now destruct (j * max_words <? List.length words)%nat.
Qed.

End CaptionProperties.

Lemma Qnat_sub (i j : nat) : (j <= i)%nat -> Qnat (i - j) == Qnat i - Qnat j.
Proof.
  intros H. unfold Qnat. rewrite Nat2Z.inj_sub by exact H.
  unfold Z.sub. rewrite inject_Z_plus, inject_Z_opp. reflexivity.
Qed.

Lemma Qlen_slice {A : Type} (xs : list A) (i k : nat) :
  Qlen (slice xs i (i + k)) = Qnat (Nat.min k (List.length xs - i)).
Proof.
  unfold Qlen. now rewrite length_slice.
Qed.

Section CaptionTiling.

Variables (start_time end_time : Q) (video_size : video_size_t).
Variable words : list string.
Hypothesis many_words : (max_words < List.length words)%nat.

Let duration : Q := end_time - start_time.
Let clip_at := chunk_clip start_time duration video_size words.

Lemma Qlen_many_pos : 0 < Qlen words.
Proof.
  rewrite Qlen_Qnat. apply Qnat_pos. lia.
Qed.

Lemma chunk_start (i : nat) :
  clip_start (clip_at i)
  == start_time + duration * (Qnat i / Qlen words).
Proof.
  unfold clip_at, chunk_clip, caption_clip. cbn [clip_start].
  field. pose proof Qlen_many_pos. lra.
Qed.

Lemma chunk_duration (i : nat) :
  clip_duration (clip_at i)
  = duration * Qlen (slice words i (i + max_words)) / Qlen words.
Proof. reflexivity. Qed.

(** A group of [max_words] words ends where the next group starts. *)
Lemma chunk_end_full (i : nat) :
  (i + max_words <= List.length words)%nat ->
  clip_end (clip_at i) == clip_start (clip_at (i + max_words)).
Proof.
  intros Hi. unfold clip_end. rewrite chunk_duration, !chunk_start.
  rewrite Qlen_slice.
  replace (Nat.min max_words (List.length words - i)) with max_words by lia.
  rewrite Qnat_add. field. pose proof Qlen_many_pos. lra.
Qed.

(** The last group ends with the entry. *)
Lemma chunk_end_last (i : nat) :
  (i < List.length words)%nat ->
  (List.length words <= i + max_words)%nat ->
  clip_end (clip_at i) == end_time.
Proof.
  intros Hlo Hhi. unfold clip_end. rewrite chunk_duration, chunk_start.
  rewrite Qlen_slice.
  replace (Nat.min max_words (List.length words - i))
    with (List.length words - i)%nat by lia.
  rewrite Qnat_sub by lia. rewrite <- Qlen_Qnat.
  unfold duration. field. pose proof Qlen_many_pos. lra.
Qed.

(** The durations of the groups from index [start] on add up to the share
    of the words from [start] on. *)
Lemma total_duration_from (fuel : nat) :
  forall start : nat,
    (List.length words - start <= fuel)%nat ->
    (start <= List.length words)%nat ->
    total_duration
      (map clip_at (range_from fuel start (List.length words) max_words))
    == duration * (Qlen words - Qnat start) / Qlen words.
Proof.
  pose proof Qlen_many_pos as Hpos.
  induction fuel as [| fuel IH]; intros start Hfuel Hstart.
  - cbn [range_from map total_duration fold_right].
    assert (E : start = List.length words) by lia.
    rewrite E, <- Qlen_Qnat. field. lra.
  - cbn [range_from]. destruct (start <? List.length words)%nat eqn:E.
    + apply Nat.ltb_lt in E. cbn [map total_duration fold_right].
      fold (total_duration
              (map clip_at
                   (range_from fuel (start + max_words)
                               (List.length words) max_words))).
      rewrite chunk_duration, Qlen_slice.
      destruct (Nat.le_gt_cases (start + max_words) (List.length words))
        as [Hfull | Hlast].
      * rewrite IH by (unfold max_words in *; lia).
        replace (Nat.min max_words (List.length words - start))
          with max_words by lia.
        rewrite Qnat_add. field. lra.
      * assert (Hnil : range_from fuel (start + max_words)
                                  (List.length words) max_words = []).
        { destruct fuel; cbn [range_from]; [reflexivity |].
          replace (start + max_words <? List.length words)%nat with false
            by (symmetry; apply Nat.ltb_ge; lia).
          reflexivity. }
        rewrite Hnil. cbn [map total_duration fold_right].
        replace (Nat.min max_words (List.length words - start))
          with (List.length words - start)%nat by lia.
        rewrite Qnat_sub by lia. rewrite <- Qlen_Qnat. field. lra.
    + apply Nat.ltb_ge in E. cbn [map total_duration fold_right].
      assert (E' : start = List.length words) by lia.
      rewrite E', <- Qlen_Qnat. field. lra.
Qed.

End CaptionTiling.

(** C1, as the code has it.  The end of a caption is its start plus its
    duration, both computed from the formulas: nothing assigns the end of
    the entry to the last caption.  With the times as exact rationals, for
    an entry whose text has more than [max_words] (5) words, the captions
    tile the interval of the entry: the first starts at [start], the last
    ends at [end], each one starts where the one before ends, and the
    durations add up to the duration of the entry; caption [j] holds the
    words of indices [5j] to [5j + 4] (fewer in the last one), lasts
    [duration * group_word_count / total_word_count] and starts at
    [start + duration * (words_before_group / total_word_count)].  Over
    binary64 the same formulas give these equalities up to rounding only. *)
Theorem caption_segments_tile
  (text : string) (start_time end_time : Q) (video_size : video_size_t) :
  (max_words < List.length (str_split text))%nat ->
  let words := str_split text in
  let duration := end_time - start_time in
  let clips := create_subtitle_clip text start_time end_time video_size in
  (exists first,
      nth_error clips 0 = Some first /\ clip_start first == start_time)
  /\ (exists last,
         nth_error clips (List.length clips - 1) = Some last
         /\ clip_end last == end_time)
  /\ (forall j c c',
         nth_error clips j = Some c ->
         nth_error clips (S j) = Some c' ->
         clip_start c' == clip_end c)
  /\ total_duration clips == duration
  /\ (forall j c,
         nth_error clips j = Some c ->
         let group := slice words (j * max_words) (j * max_words + max_words) in
         clip_txt c = str_join group
         /\ List.length group
            = Nat.min max_words (List.length words - j * max_words)
         /\ clip_duration c == duration * Qlen group / Qlen words
         /\ clip_start c
            == start_time + duration * (Qnat (j * max_words) / Qlen words)).
Proof.
  intros Hmany words duration clips. subst duration.
  change (max_words < List.length words)%nat in Hmany.
  assert (Hn : (5 < List.length words)%nat) by exact Hmany.
  set (clip_at := chunk_clip start_time (end_time - start_time) video_size
                            words).
  assert (Hclips : clips = map clip_at (range 0 (List.length words) max_words)).
  { unfold clips, create_subtitle_clip. fold words.
    replace (max_words <? List.length words)%nat with true
      by (symmetry; apply Nat.ltb_lt; exact Hmany).
    now rewrite chunk_loop_map. }
  assert (Hnth : forall j,
             nth_error clips j
             = if (j * max_words <? List.length words)%nat
               then Some (clip_at (j * max_words)%nat)
               else None).
  { intros j. rewrite Hclips. apply nth_error_chunks. }
  assert (Hsome : forall j c,
             nth_error clips j = Some c ->
             (j * max_words < List.length words)%nat
             /\ c = clip_at (j * max_words)%nat).
  { intros j c Hc. rewrite Hnth in Hc.
    destruct (j * max_words <? List.length words)%nat eqn:E; [| discriminate].
    apply Nat.ltb_lt in E. split; [exact E | congruence]. }
  assert (Hpos : 0 < Qlen words) by (apply Qlen_many_pos; exact Hmany).
  assert (Hfirst : nth_error clips 0 = Some (clip_at 0%nat)).
  { rewrite Hnth. cbn [Nat.mul].
    replace (0 <? List.length words)%nat with true
      by (symmetry; apply Nat.ltb_lt; lia).
    reflexivity. }
  split; [| split; [| split; [| split]]].
  - exists (clip_at 0%nat). split; [exact Hfirst |].
    unfold clip_at. rewrite chunk_start by exact Hmany.
    change (Qnat 0) with 0. field. lra.
  - assert (Hlen : (0 < List.length clips)%nat).
    { apply nth_error_Some. rewrite Hfirst. discriminate. }
    destruct (nth_error clips (List.length clips - 1)) as [last |] eqn:Hlast.
    2: { apply nth_error_None in Hlast. lia. }
    exists last. split; [reflexivity |].
    destruct (Hsome _ _ Hlast) as (Hlo & ->).
    assert (Hnone : nth_error clips (List.length clips) = None)
      by (apply nth_error_None; lia).
    rewrite Hnth in Hnone.
    destruct (List.length clips * max_words <? List.length words)%nat eqn:E;
      [discriminate |].
    apply Nat.ltb_ge in E.
    apply chunk_end_last; [exact Hmany | exact Hlo |].
    unfold max_words in *. lia.
  - intros j c c' Hc Hc'.
    destruct (Hsome _ _ Hc) as (_ & ->).
    destruct (Hsome _ _ Hc') as (Hnext & ->).
    replace (S j * max_words)%nat with (j * max_words + max_words)%nat by lia.
    symmetry. apply chunk_end_full; [exact Hmany |].
    unfold max_words in *. lia.
  - rewrite Hclips. unfold range, clip_at.
    rewrite total_duration_from by (try exact Hmany; lia).
    change (Qnat 0) with 0. field. lra.
  - intros j c Hc group. destruct (Hsome _ _ Hc) as (Hj & ->).
    split; [reflexivity |]. split; [apply length_slice |].
    split; [reflexivity |].
    unfold clip_at. rewrite chunk_start by exact Hmany. reflexivity.
Qed.

Lemma caption_segments_tile_witness :
  total_duration (create_subtitle_clip scenario_text 2 6 (1080, 1920)%Z)
  == 6 - 2.
Proof.
  apply (caption_segments_tile scenario_text 2 6 (1080, 1920)%Z).
  vm_compute. reflexivity.
Defined.

(** ** Timestamps *)

Ltac by_ascii c :=
  destruct c as [[] [] [] [] [] [] [] []];
  vm_compute; intros; solve [reflexivity | discriminate | tauto].

Lemma digit_not_int_space (c : ascii) : isdigit c = true -> int_space c = false.
Proof. by_ascii c. Qed.

Lemma digit_not_comma (c : ascii) : isdigit c = true -> Ascii.eqb c "," = false.
Proof. by_ascii c. Qed.

Lemma digit_not_colon (c : ascii) : isdigit c = true -> Ascii.eqb c ":" = false.
Proof. by_ascii c. Qed.

Lemma digit_literal (c : ascii) (s : string) :
  isdigit c = true -> int_literal (String c s) = int_unsigned (String c s).
Proof.
  destruct c as [[] [] [] [] [] [] [] []];
    try reflexivity; vm_compute; discriminate.
Qed.

Lemma snoc_append (cur : string) (c : ascii) (s : string) :
  (snoc cur c ++ s = cur ++ String c s)%string.
Proof.
  unfold snoc. induction cur as [| d cur IH]; simpl; [reflexivity |].
  now rewrite IH.
Qed.

Lemma append_empty_r (s : string) : (s ++ "" = s)%string.
Proof.
  induction s as [| c s IH]; simpl; [reflexivity | now rewrite IH].
Qed.

(** *** [str.split(sep)] *)

Lemma length_str_split_from (sep : ascii) (s : string) :
  forall cur,
    List.length (str_split_from sep cur s) = S (count_char sep s).
Proof.
  induction s as [| c s IH]; intros cur; simpl; [reflexivity |].
  destruct (Ascii.eqb c sep); simpl; now rewrite IH.
Qed.

Lemma str_split_from_no_sep (sep : ascii) (s : string) :
  forall cur,
    count_char sep s = 0%nat ->
    str_split_from sep cur s = [(cur ++ s)%string].
Proof.
  induction s as [| c s IH]; intros cur Hcount; simpl in *.
  - now rewrite append_empty_r.
  - destruct (Ascii.eqb c sep); [discriminate |].
    rewrite IH by exact Hcount. now rewrite snoc_append.
Qed.

Lemma str_split_from_app (sep : ascii) (a b : string) :
  forall cur,
    count_char sep a = 0%nat ->
    str_split_from sep cur (a ++ String sep b)
    = (cur ++ a)%string :: str_split_from sep "" b.
Proof.
  induction a as [| c a IH]; intros cur Hcount; simpl in *.
  - rewrite Ascii.eqb_refl. now rewrite append_empty_r.
  - destruct (Ascii.eqb c sep); [discriminate |].
    rewrite IH by exact Hcount. now rewrite snoc_append.
Qed.

Lemma count_char_app (c : ascii) (a b : string) :
  count_char c (a ++ b) = (count_char c a + count_char c b)%nat.
Proof.
  induction a as [| d a IH]; simpl; [reflexivity |].
  destruct (Ascii.eqb d c); simpl; now rewrite IH.
Qed.

Lemma digits_only_no_comma (s : string) :
  digits_only s = true -> count_char "," s = 0%nat.
Proof.
  induction s as [| c s IH]; simpl; [reflexivity |].
  intros H. apply andb_true_iff in H. destruct H as [Hc Hs].
  rewrite (digit_not_comma c Hc). now apply IH.
Qed.

Lemma digits_only_no_colon (s : string) :
  digits_only s = true -> count_char ":" s = 0%nat.
Proof.
  induction s as [| c s IH]; simpl; [reflexivity |].
  intros H. apply andb_true_iff in H. destruct H as [Hc Hs].
  rewrite (digit_not_colon c Hc). now apply IH.
Qed.

(** *** [int()] on a field of digits *)

Lemma rstrip_by_none (p : ascii -> bool) (s : string) :
  (forall c, char_in c s -> p c = false) -> rstrip_by p s = s.
Proof.
  induction s as [| c s IH]; intros Hp; simpl; [reflexivity |].
  rewrite IH by (intros d Hd; apply Hp; now right).
  destruct s; [| reflexivity].
  rewrite (Hp c) by now left. reflexivity.
Qed.

Lemma digits_only_char (s : string) (c : ascii) :
  digits_only s = true -> char_in c s -> isdigit c = true.
Proof.
  induction s as [| d s IH]; simpl; [tauto |].
  intros H [-> | Hin]; apply andb_true_iff in H; destruct H as [Hd Hs];
    [exact Hd | now apply IH].
Qed.

Lemma int_digits_decimal (s : string) :
  forall acc, digits_only s = true -> int_digits acc s = Some (decimal_from acc s).
Proof.
  induction s as [| c s IH]; intros acc H; simpl in *; [reflexivity |].
  apply andb_true_iff in H. destruct H as [Hc Hs].
  rewrite Hc. now apply IH.
Qed.

Lemma int_all_digits (s : string) :
  all_digits s = true -> int s = Returned (decimal_value s).
Proof.
  unfold all_digits. intros H. apply andb_true_iff in H.
  destruct H as [Hne Hd]. destruct s as [| c s]; [discriminate |].
  pose proof Hd as Hd'. simpl in Hd'. apply andb_true_iff in Hd'.
  destruct Hd' as [Hc Hs].
  unfold int. cbn [lstrip_by]. rewrite (digit_not_int_space c Hc).
  rewrite rstrip_by_none.
  - rewrite (digit_literal c s Hc). cbn [int_unsigned]. rewrite Hc.
    rewrite (int_digits_decimal s _ Hs). reflexivity.
  - intros d Hin. apply digit_not_int_space.
    now apply (digits_only_char (String c s)).
Qed.

Lemma append_assoc (a b c : string) : ((a ++ b) ++ c = a ++ (b ++ c))%string.
Proof.
  induction a as [| d a IH]; simpl; [reflexivity | now rewrite IH].
Qed.

(** *** The size of a field of digits, and the conversion to a float *)

Lemma digit_value_range (c : ascii) :
  isdigit c = true -> (0 <= digit_value c <= 9)%Z.
Proof.
  unfold isdigit, digit_value. intros H. apply andb_true_iff in H.
  destruct H as [Hlo Hhi].
  apply Nat.leb_le in Hlo. apply Nat.leb_le in Hhi. lia.
Qed.

Lemma decimal_from_bound (s : string) :
  forall acc,
    (0 <= acc)%Z -> digits_only s = true ->
    (0 <= decimal_from acc s
     < (acc + 1) * 10 ^ Z.of_nat (String.length s))%Z.
Proof.
  induction s as [| c s IH]; intros acc Hacc H.
  - simpl. lia.
  - cbn [digits_only] in H. apply andb_true_iff in H. destruct H as [Hc Hs].
    pose proof (digit_value_range c Hc) as Hd.
    cbn [decimal_from String.length].
    destruct (IH (10 * acc + digit_value c)%Z ltac:(lia) Hs) as [Hlo Hhi].
    split; [exact Hlo |].
    rewrite Nat2Z.inj_succ, Z.pow_succ_r by lia.
    assert (Hpow : (0 < 10 ^ Z.of_nat (String.length s))%Z)
      by (apply Z.pow_pos_nonneg; lia).
    nia.
Qed.

Lemma decimal_value_bound (s : string) (n : nat) :
  digits_only s = true -> (String.length s <= n)%nat ->
  (0 <= decimal_value s < 10 ^ Z.of_nat n)%Z.
Proof.
  intros Hs Hn. unfold decimal_value.
  destruct (decimal_from_bound s 0%Z ltac:(lia) Hs) as [Hlo Hhi].
  split; [exact Hlo |].
  eapply Z.lt_le_trans; [exact Hhi |].
  rewrite Z.mul_1_l. apply Z.pow_le_mono_r; lia.
Qed.

Lemma float_of_int_returns (z : Z) :
  (Z.abs z < float_limit)%Z -> float_of_int z = Returned (inject_Z z).
Proof.
  intros H. unfold float_of_int. apply Z.ltb_lt in H. now rewrite H.
Qed.

Lemma float_of_int_overflows (z : Z) :
  (float_limit <= Z.abs z)%Z -> float_of_int z = Raised OverflowError.
Proof.
  intros H. unfold float_of_int. apply Z.ltb_ge in H. now rewrite H.
Qed.

Lemma float_of_int_raises (z : Z) (e : exn) :
  float_of_int z = Raised e -> e = OverflowError /\ (float_limit <= Z.abs z)%Z.
Proof.
  unfold float_of_int. destruct (Z.abs z <? float_limit)%Z eqn:E; [discriminate |].
  intros H. apply Z.ltb_ge in E. split; [congruence | exact E].
Qed.

Lemma float_of_int_returned (z : Z) (q : Q) :
  float_of_int z = Returned q -> q = inject_Z z /\ (Z.abs z < float_limit)%Z.
Proof.
  unfold float_of_int. destruct (Z.abs z <? float_limit)%Z eqn:E; [| discriminate].
  intros H. apply Z.ltb_lt in E. split; [congruence | exact E].
Qed.

(** Three hundred digits in each field are far from the limit. *)
Lemma short_fields_convert :
  (3661 * 10 ^ Z.of_nat 300 < float_limit)%Z.
Proof.
  vm_compute. reflexivity.
Qed.

(** *** Timecodes made of fields of digits *)

Section DigitFields.

Variables hh mm ss mmm : string.
Hypothesis hh_digits : all_digits hh = true.
Hypothesis mm_digits : all_digits mm = true.
Hypothesis ss_digits : all_digits ss = true.
Hypothesis mmm_digits : all_digits mmm = true.
Hypothesis hh_short : (String.length hh <= 300)%nat.
Hypothesis mm_short : (String.length mm <= 300)%nat.
Hypothesis ss_short : (String.length ss <= 300)%nat.
Hypothesis mmm_short : (String.length mmm <= 300)%nat.

Lemma all_digits_only (s : string) : all_digits s = true -> digits_only s = true.
Proof.
  unfold all_digits. intros H. apply andb_true_iff in H. tauto.
Qed.

Lemma str_split_on_window :
  str_split_on ":" (window_timecode hh mm ss) = [hh; mm; ss].
Proof.
  unfold str_split_on, window_timecode. cbn [append].
  rewrite str_split_from_app
    by (apply digits_only_no_colon, all_digits_only, hh_digits).
  rewrite str_split_from_app
    by (apply digits_only_no_colon, all_digits_only, mm_digits).
  rewrite str_split_from_no_sep
    by (apply digits_only_no_colon, all_digits_only, ss_digits).
  reflexivity.
Qed.

Lemma window_no_comma : count_char "," (window_timecode hh mm ss) = 0%nat.
Proof.
  unfold window_timecode. cbn [append].
  rewrite !count_char_app. cbn [count_char]. rewrite !count_char_app.
  cbn [count_char].
  rewrite !digits_only_no_comma by (apply all_digits_only; assumption).
  reflexivity.
Qed.

Lemma str_split_on_track :
  str_split_on "," (track_timecode hh mm ss mmm)
  = [window_timecode hh mm ss; mmm].
Proof.
  unfold str_split_on.
  replace (track_timecode hh mm ss mmm)
    with (window_timecode hh mm ss ++ String "," mmm)%string.
  - rewrite str_split_from_app by apply window_no_comma.
    rewrite str_split_from_no_sep
      by (apply digits_only_no_comma, all_digits_only, mmm_digits).
    reflexivity.
  - unfold track_timecode, window_timecode. cbn [append].
    rewrite !append_assoc. cbn [append]. rewrite !append_assoc.
    reflexivity.
Qed.

Lemma time_to_seconds_digits :
  time_to_seconds (window_timecode hh mm ss)
  = Returned (decimal_value hh * 3600 + decimal_value mm * 60
              + decimal_value ss)%Z.
Proof.
  unfold time_to_seconds. rewrite str_split_on_window.
  now rewrite !int_all_digits by assumption.
Qed.

Lemma timestamp_to_seconds_digits :
  timestamp_to_seconds (track_timecode hh mm ss mmm)
  = Returned (inject_Z (decimal_value hh * 3600 + decimal_value mm * 60
                        + decimal_value ss)
              + inject_Z (decimal_value mmm) / 1000).
Proof.
  unfold timestamp_to_seconds. rewrite str_split_on_track, str_split_on_window.
  rewrite !int_all_digits by assumption.
  pose proof short_fields_convert as Hlimit.
  pose proof (decimal_value_bound hh 300 (all_digits_only _ hh_digits) hh_short).
  pose proof (decimal_value_bound mm 300 (all_digits_only _ mm_digits) mm_short).
  pose proof (decimal_value_bound ss 300 (all_digits_only _ ss_digits) ss_short).
  pose proof (decimal_value_bound mmm 300 (all_digits_only _ mmm_digits) mmm_short).
  set (bound := (10 ^ Z.of_nat 300)%Z) in *.
  cbv zeta.
  rewrite !float_of_int_returns by lia.
  reflexivity.
Qed.

End DigitFields.

(** *** What makes a decoder raise *)

Lemma int_raises_value_error (s : string) (e : exn) :
  int s = Raised e -> e = ValueError.
Proof.
  unfold int. destruct (int_literal _); congruence.
Qed.

Lemma char_in_lstrip_by (p : ascii -> bool) (c : ascii) (s : string) :
  p c = false -> char_in c s -> char_in c (lstrip_by p s).
Proof.
  intros Hp. induction s as [| d s IH]; simpl; [tauto |].
  intros [-> | Hin].
  - rewrite Hp. now left.
  - destruct (p d); [now apply IH | now right].
Qed.

Lemma char_in_rstrip_by (p : ascii -> bool) (c : ascii) (s : string) :
  p c = false -> char_in c s -> char_in c (rstrip_by p s).
Proof.
  intros Hp. induction s as [| d s IH]; simpl; [tauto |].
  intros [-> | Hin].
  - destruct (rstrip_by p s); [rewrite Hp |]; now left.
  - specialize (IH Hin). destruct (rstrip_by p s); [contradiction | now right].
Qed.

Section BadCharacter.

Variable c : ascii.
Hypothesis not_int_char : int_char c = false.

Lemma bad_char_classes :
  isdigit c = false /\ int_space c = false /\ Ascii.eqb c "+" = false
  /\ Ascii.eqb c "-" = false /\ Ascii.eqb c "_" = false.
Proof.
  pose proof not_int_char as H. unfold int_char in H.
  rewrite !orb_false_iff in H. tauto.
Qed.

Lemma bad_not_digit : isdigit c = false.
Proof. apply bad_char_classes. Qed.

Lemma bad_not_space : int_space c = false.
Proof. apply bad_char_classes. Qed.

Lemma bad_not_symbol :
  Ascii.eqb c "+" = false /\ Ascii.eqb c "-" = false
  /\ Ascii.eqb c "_" = false.
Proof. pose proof bad_char_classes. tauto. Qed.

Lemma int_digits_bad (s : string) :
  forall acc, char_in c s -> int_digits acc s = None.
Proof.
  induction s as [| d s IH]; intros acc Hin; [contradiction |].
  cbn [int_digits]. destruct Hin as [-> | Hin].
  - rewrite bad_not_digit. destruct bad_not_symbol as (_ & _ & ->).
    reflexivity.
  - destruct (isdigit d); [now apply IH |].
    destruct (Ascii.eqb d "_"); [| reflexivity].
    destruct s as [| d' s]; [reflexivity |].
    specialize (IH acc Hin). cbn [int_digits] in IH.
    destruct (isdigit d'); [exact IH | reflexivity].
Qed.

Lemma int_unsigned_bad (s : string) : char_in c s -> int_unsigned s = None.
Proof.
  destruct s as [| d s]; [contradiction |].
  cbn [int_unsigned]. intros [-> | Hin].
  - now rewrite bad_not_digit.
  - destruct (isdigit d); [now apply int_digits_bad | reflexivity].
Qed.

Lemma int_literal_bad (s : string) : char_in c s -> int_literal s = None.
Proof.
  intros Hin.
  assert (Hcases : int_literal s = int_unsigned s
                   \/ exists d s', s = String d s'
                                   /\ (Ascii.eqb d "+" = true
                                       \/ Ascii.eqb d "-" = true)
                                   /\ (int_literal s = int_unsigned s'
                                       \/ int_literal s
                                          = option_map Z.opp (int_unsigned s'))).
  { destruct s as [| d s']; [now left |].
    destruct d as [[] [] [] [] [] [] [] []];
      try (left; reflexivity);
      right; eexists; eexists; (split; [reflexivity |]);
      (split; [(left; reflexivity) || (right; reflexivity) |]);
      (left; reflexivity) || (right; reflexivity). }
  destruct Hcases as [-> | (d & s' & -> & Hsign & Hlit)].
  - now apply int_unsigned_bad.
  - assert (Hin' : char_in c s').
    { destruct Hin as [-> | Hin]; [| exact Hin].
      destruct bad_not_symbol as (Hplus & Hminus & _).
      destruct Hsign; congruence. }
    destruct Hlit as [-> | ->]; rewrite (int_unsigned_bad s' Hin');
      reflexivity.
Qed.

Lemma int_bad (s : string) : char_in c s -> int s = Raised ValueError.
Proof.
  intros Hin. unfold int. rewrite int_literal_bad; [reflexivity |].
  apply char_in_rstrip_by, char_in_lstrip_by; auto using bad_not_space.
Qed.

End BadCharacter.

(** *** The parts of a split *)

Lemma char_in_snoc (c d : ascii) (cur : string) :
  char_in c (snoc cur d) <-> char_in c cur \/ d = c.
Proof.
  unfold snoc. induction cur as [| x cur IH]; simpl; tauto.
Qed.

Lemma char_in_split_part (sep c : ascii) (s : string) :
  Ascii.eqb c sep = false ->
  forall cur,
    char_in c cur \/ char_in c s ->
    exists part, In part (str_split_from sep cur s) /\ char_in c part.
Proof.
  intros Hsep. induction s as [| d s IH]; intros cur Hin.
  - exists cur. simpl in *. tauto.
  - cbn [str_split_from]. destruct (Ascii.eqb d sep) eqn:E.
    + destruct Hin as [Hin | [-> | Hin]].
      * exists cur. split; [now left | exact Hin].
      * congruence.
      * destruct (IH ""%string (or_intror Hin)) as (part & Hpart & Hc).
        exists part. split; [now right | exact Hc].
    + apply IH. rewrite char_in_snoc. simpl in Hin. tauto.
Qed.

Lemma count_char_snoc (c d : ascii) (cur : string) :
  count_char c (snoc cur d)
  = (count_char c cur + if Ascii.eqb d c then 1 else 0)%nat.
Proof.
  unfold snoc. induction cur as [| x cur IH]; simpl.
  - now destruct (Ascii.eqb d c).
  - destruct (Ascii.eqb x c); simpl; now rewrite IH.
Qed.

Lemma list_sum_cons (x : nat) (xs : list nat) :
  list_sum (x :: xs) = (x + list_sum xs)%nat.
Proof. reflexivity. Qed.

Lemma count_char_split_parts (sep c : ascii) (s : string) :
  Ascii.eqb sep c = false ->
  forall cur,
    list_sum (map (count_char c) (str_split_from sep cur s))
    = (count_char c cur + count_char c s)%nat.
Proof.
  intros Hsep. induction s as [| d s IH]; intros cur.
  - simpl. lia.
  - cbn [str_split_from count_char]. destruct (Ascii.eqb d sep) eqn:E.
    + apply Ascii.eqb_eq in E. subst d. rewrite Hsep.
      cbn [map]. rewrite list_sum_cons, IH. simpl. lia.
    + rewrite IH, count_char_snoc. destruct (Ascii.eqb d c); lia.
Qed.

Lemma count_char_pos (c : ascii) (s : string) :
  count_char c s <> 0%nat -> char_in c s.
Proof.
  induction s as [| d s IH]; simpl; [congruence |].
  destruct (Ascii.eqb d c) eqn:E.
  - apply Ascii.eqb_eq in E. now left.
  - intros H. right. now apply IH.
Qed.

(** *** When the decoders return *)

Lemma time_to_seconds_returned (time_str : string) (z : Z) :
  time_to_seconds time_str = Returned z ->
  exists h m s zh zm zs,
    str_split_on ":" time_str = [h; m; s]
    /\ int h = Returned zh /\ int m = Returned zm /\ int s = Returned zs
    /\ z = (zh * 3600 + zm * 60 + zs)%Z.
Proof.
  unfold time_to_seconds.
  destruct (str_split_on ":" time_str) as [| h [| m [| s [| x rest]]]];
    try discriminate.
  destruct (int h) as [zh |] eqn:Eh; [| discriminate].
  destruct (int m) as [zm |] eqn:Em; [| discriminate].
  destruct (int s) as [zs |] eqn:Es; [| discriminate].
  intros H. injection H as <-.
  exists h, m, s, zh, zm, zs. repeat split; auto.
Qed.

Lemma timestamp_to_seconds_returned (timestamp : string) (q : Q) :
  timestamp_to_seconds timestamp = Returned q ->
  exists time_part ms_part h m s zh zm zs zms,
    str_split_on "," timestamp = [time_part; ms_part]
    /\ str_split_on ":" time_part = [h; m; s]
    /\ int h = Returned zh /\ int m = Returned zm /\ int s = Returned zs
    /\ int ms_part = Returned zms
    /\ q = inject_Z (zh * 3600 + zm * 60 + zs) + inject_Z zms / 1000
    /\ (Z.abs zms < float_limit)%Z
    /\ (Z.abs (zh * 3600 + zm * 60 + zs) < float_limit)%Z.
Proof.
  unfold timestamp_to_seconds.
  destruct (str_split_on "," timestamp)
    as [| time_part [| ms_part [| x rest]]] eqn:Ecomma; try discriminate.
  destruct (str_split_on ":" time_part)
    as [| h [| m [| s [| x rest]]]] eqn:Ecolon; try discriminate.
  destruct (int h) as [zh |] eqn:Eh; [| discriminate].
  destruct (int m) as [zm |] eqn:Em; [| discriminate].
  destruct (int s) as [zs |] eqn:Es; [| discriminate].
  destruct (int ms_part) as [zms |] eqn:Ems; [| discriminate].
  cbv zeta.
  destruct (float_of_int zms) as [fms |] eqn:Efms; [| discriminate].
  destruct (float_of_int (zh * 3600 + zm * 60 + zs)) as [fwhole |] eqn:Ewhole;
    [| discriminate].
  apply float_of_int_returned in Efms. destruct Efms as [-> Hfms].
  apply float_of_int_returned in Ewhole. destruct Ewhole as [-> Hwhole].
  intros H. injection H as <-.
  exists time_part, ms_part, h, m, s, zh, zm, zs, zms.
  repeat split; auto.
Qed.

Lemma time_to_seconds_raises (time_str : string) :
  (forall z, time_to_seconds time_str <> Returned z) ->
  time_to_seconds time_str = Raised ValueError.
Proof.
  intros Hnot. destruct (time_to_seconds time_str) as [z | e] eqn:E.
  - now destruct (Hnot z).
  - f_equal. unfold time_to_seconds in E.
    destruct (str_split_on ":" time_str) as [| h [| m [| s [| x rest]]]];
      try congruence.
    destruct (int h) eqn:Eh; [| apply int_raises_value_error in Eh; congruence].
    destruct (int m) eqn:Em; [| apply int_raises_value_error in Em; congruence].
    destruct (int s) eqn:Es; [| apply int_raises_value_error in Es; congruence].
    discriminate.
Qed.

(** A timestamp whose fields are not four integers raises [ValueError],
    before any conversion to a float. *)
Lemma timestamp_to_seconds_raises (timestamp : string) :
  (forall time_part ms_part h m s zh zm zs zms,
      str_split_on "," timestamp = [time_part; ms_part] ->
      str_split_on ":" time_part = [h; m; s] ->
      int h = Returned zh -> int m = Returned zm -> int s = Returned zs ->
      int ms_part = Returned zms -> False) ->
  timestamp_to_seconds timestamp = Raised ValueError.
Proof.
  intros Hnot. unfold timestamp_to_seconds.
  destruct (str_split_on "," timestamp) as [| tp [| ms [| x rest]]] eqn:Ecomma;
    try reflexivity.
  destruct (str_split_on ":" tp) as [| h [| m [| s [| x rest]]]] eqn:Ecolon;
    try reflexivity.
  destruct (int h) as [zh | e] eqn:Eh;
    [| apply int_raises_value_error in Eh; congruence].
  destruct (int m) as [zm | e] eqn:Em;
    [| apply int_raises_value_error in Em; congruence].
  destruct (int s) as [zs | e] eqn:Es;
    [| apply int_raises_value_error in Es; congruence].
  destruct (int ms) as [zms | e] eqn:Ems;
    [| apply int_raises_value_error in Ems; congruence].
  destruct (Hnot tp ms h m s zh zm zs zms); auto.
Qed.

(** Every error of the decoder is a [ValueError] or an [OverflowError]. *)
Lemma timestamp_to_seconds_errors (timestamp : string) (e : exn) :
  timestamp_to_seconds timestamp = Raised e ->
  e = ValueError \/ e = OverflowError.
Proof.
  unfold timestamp_to_seconds.
  destruct (str_split_on "," timestamp) as [| tp [| ms [| x rest]]];
    try (intros H; left; congruence).
  destruct (str_split_on ":" tp) as [| h [| m [| s [| x rest]]]];
    try (intros H; left; congruence).
  destruct (int h) as [zh | e1] eqn:Eh;
    [| apply int_raises_value_error in Eh; intros H; left; congruence].
  destruct (int m) as [zm | e1] eqn:Em;
    [| apply int_raises_value_error in Em; intros H; left; congruence].
  destruct (int s) as [zs | e1] eqn:Es;
    [| apply int_raises_value_error in Es; intros H; left; congruence].
  destruct (int ms) as [zms | e1] eqn:Ems;
    [| apply int_raises_value_error in Ems; intros H; left; congruence].
  cbv zeta.
  destruct (float_of_int zms) as [fms | e1] eqn:Efms;
    [| apply float_of_int_raises in Efms; intros H; right; intuition congruence].
  destruct (float_of_int (zh * 3600 + zm * 60 + zs)) as [fw | e1] eqn:Ew;
    [| apply float_of_int_raises in Ew; intros H; right; intuition congruence].
  discriminate.
Qed.

Lemma split_two_count (sep : ascii) (s a b : string) :
  str_split_on sep s = [a; b] -> count_char sep s = 1%nat.
Proof.
  intros H. pose proof (length_str_split_from sep s ""%string) as Hlen.
  unfold str_split_on in H. rewrite H in Hlen. simpl in Hlen. lia.
Qed.

Lemma split_three_count (sep : ascii) (s a b c : string) :
  str_split_on sep s = [a; b; c] -> count_char sep s = 2%nat.
Proof.
  intros H. pose proof (length_str_split_from sep s ""%string) as Hlen.
  unfold str_split_on in H. rewrite H in Hlen. simpl in Hlen. lia.
Qed.

Lemma time_to_seconds_bad_char (time_str : string) (c : ascii) :
  char_in c time_str -> int_char c = false -> c <> ":"%char ->
  time_to_seconds time_str = Raised ValueError.
Proof.
  intros Hin Hbad Hcolon. apply time_to_seconds_raises. intros z Hz.
  apply time_to_seconds_returned in Hz.
  destruct Hz as (h & m & s & zh & zm & zs & Hsplit & Hh & Hm & Hs & _).
  assert (Hsep : Ascii.eqb c ":" = false) by now apply Ascii.eqb_neq.
  destruct (char_in_split_part ":" c time_str Hsep ""%string (or_intror Hin))
    as (part & Hpart & Hc).
  fold (str_split_on ":" time_str) in Hpart. rewrite Hsplit in Hpart.
  pose proof (int_bad c Hbad part Hc) as Hfail.
  simpl in Hpart. destruct Hpart as [<- | [<- | [<- | []]]]; congruence.
Qed.

Lemma time_to_seconds_colons (time_str : string) :
  count_char ":" time_str <> 2%nat ->
  time_to_seconds time_str = Raised ValueError.
Proof.
  intros Hcount. apply time_to_seconds_raises. intros z Hz.
  apply time_to_seconds_returned in Hz.
  destruct Hz as (h & m & s & _ & _ & _ & Hsplit & _).
  apply split_three_count in Hsplit. contradiction.
Qed.

Lemma timestamp_to_seconds_commas (timestamp : string) :
  count_char "," timestamp <> 1%nat ->
  timestamp_to_seconds timestamp = Raised ValueError.
Proof.
  intros Hcount. apply timestamp_to_seconds_raises.
  intros tp ms h m s zh zm zs zms Hsplit _ _ _ _ _.
  apply split_two_count in Hsplit. contradiction.
Qed.

Lemma timestamp_to_seconds_bad_char (timestamp : string) (c : ascii) :
  char_in c timestamp -> int_char c = false ->
  c <> ":"%char -> c <> ","%char ->
  timestamp_to_seconds timestamp = Raised ValueError.
Proof.
  intros Hin Hbad Hcolon Hcomma. apply timestamp_to_seconds_raises.
  intros tp ms h m s zh zm zs zms Hsplit Hparts Hh Hm Hs Hms.
  assert (Hsep1 : Ascii.eqb c "," = false) by now apply Ascii.eqb_neq.
  assert (Hsep2 : Ascii.eqb c ":" = false) by now apply Ascii.eqb_neq.
  destruct (char_in_split_part "," c timestamp Hsep1 ""%string (or_intror Hin))
    as (part & Hpart & Hc).
  fold (str_split_on "," timestamp) in Hpart. rewrite Hsplit in Hpart.
  simpl in Hpart. destruct Hpart as [<- | [<- | []]].
  - destruct (char_in_split_part ":" c tp Hsep2 ""%string (or_intror Hc))
      as (part & Hpart & Hc').
    fold (str_split_on ":" tp) in Hpart. rewrite Hparts in Hpart.
    pose proof (int_bad c Hbad part Hc') as Hfail.
    simpl in Hpart. destruct Hpart as [<- | [<- | [<- | []]]]; congruence.
  - pose proof (int_bad c Hbad ms Hc). congruence.
Qed.

Lemma timestamp_to_seconds_colons (timestamp : string) :
  count_char ":" timestamp <> 2%nat ->
  timestamp_to_seconds timestamp = Raised ValueError.
Proof.
  intros Hcount. apply timestamp_to_seconds_raises.
  intros tp ms h m s zh zm zs zms Hsplit Hparts _ _ _ Hms.
  apply split_three_count in Hparts.
  pose proof (count_char_split_parts "," ":" timestamp eq_refl ""%string)
    as Hsum.
  fold (str_split_on "," timestamp) in Hsum. rewrite Hsplit in Hsum.
  simpl in Hsum.
  assert (Hin : char_in ":" ms) by (apply count_char_pos; lia).
  pose proof (int_bad ":" eq_refl ms Hin). congruence.
Qed.

(** C9, counterexample.  The fields of ["1:2:3,4"] have the wrong width, so
    the pattern [HH:MM:SS,mmm] does not match it, and yet it is decoded, to
    3723.004; the same holds for ["1:2:3"] and the window format.  Each
    decoder accepts one format only. *)
Lemma decode_accepts_other_widths :
  match_classes timestamp_pattern "1:2:3,4" = None
  /\ (exists q, timestamp_to_seconds "1:2:3,4" = Returned q /\ q == 3723.004)
  /\ time_to_seconds "1:2:3" = Returned 3723%Z
  /\ timestamp_to_seconds "00:00:01" = Raised ValueError
  /\ time_to_seconds "00:00:01,500" = Raised ValueError.
Proof.
  split; [reflexivity |].
  split; [eexists; split; [reflexivity | reflexivity] |].
  repeat split; reflexivity.
Qed.

(** The decoder overflows on fields of digits that are too large for a
    float, whichever of the two conversions meets them. *)
Lemma timestamp_to_seconds_overflows (hh mm ss mmm : string) :
  all_digits hh = true -> all_digits mm = true ->
  all_digits ss = true -> all_digits mmm = true ->
  (float_limit <= decimal_value mmm
   \/ float_limit <= decimal_value hh * 3600 + decimal_value mm * 60
                      + decimal_value ss)%Z ->
  timestamp_to_seconds (track_timecode hh mm ss mmm) = Raised OverflowError.
Proof.
  intros Hh Hm Hs Hms Hbig.
  unfold timestamp_to_seconds.
  rewrite str_split_on_track, str_split_on_window by assumption.
  rewrite !int_all_digits by assumption. cbv zeta.
  pose proof (decimal_value_bound hh _ (all_digits_only _ Hh) (le_n _)) as [Bh _].
  pose proof (decimal_value_bound mm _ (all_digits_only _ Hm) (le_n _)) as [Bm _].
  pose proof (decimal_value_bound ss _ (all_digits_only _ Hs) (le_n _)) as [Bs _].
  pose proof (decimal_value_bound mmm _ (all_digits_only _ Hms) (le_n _))
    as [Bms _].
  destruct (float_of_int (decimal_value mmm)) as [fms | e] eqn:Efms.
  - apply float_of_int_returned in Efms. destruct Efms as [_ Hsmall].
    rewrite float_of_int_overflows; [reflexivity | lia].
  - apply float_of_int_raises in Efms. destruct Efms as [-> _]. reflexivity.
Qed.

(** C9, as the code has it.  [timestamp_to_seconds] decodes the track
    format and [time_to_seconds] the window format: on fields of decimal
    digits separated as in [HH:MM:SS,mmm] (or [HH:MM:SS]), of up to three
    hundred digits each, the result is [h*3600 + m*60 + s + ms/1000] (or
    [h*3600 + m*60 + s]), so ["00:00:01,500"] gives 1.5 and
    ["01:00:00,000"] gives 3600.  The width of a field is not checked.  A
    decoder raises [ValueError] when a separator is missing or in excess,
    and when a field holds a character that no integer literal can hold;
    [timestamp_to_seconds] raises [OverflowError] when the milliseconds or
    the whole seconds, of fields of at most 4300 digits, are too large for
    a float, as on a field of four hundred nines. *)
Theorem decode_fields_of_digits :
  (forall hh mm ss mmm,
      all_digits hh = true -> all_digits mm = true ->
      all_digits ss = true -> all_digits mmm = true ->
      (String.length hh <= 300)%nat -> (String.length mm <= 300)%nat ->
      (String.length ss <= 300)%nat -> (String.length mmm <= 300)%nat ->
      timestamp_to_seconds (track_timecode hh mm ss mmm)
      = Returned (inject_Z (decimal_value hh * 3600 + decimal_value mm * 60
                            + decimal_value ss)
                  + inject_Z (decimal_value mmm) / 1000)
      /\ time_to_seconds (window_timecode hh mm ss)
         = Returned (decimal_value hh * 3600 + decimal_value mm * 60
                     + decimal_value ss)%Z)
  /\ (exists q, timestamp_to_seconds "00:00:01,500" = Returned q /\ q == 1.5)
  /\ (exists q, timestamp_to_seconds "01:00:00,000" = Returned q /\ q == 3600)
  /\ time_to_seconds "00:00:10" = Returned 10%Z
  /\ (forall timestamp,
         count_char "," timestamp <> 1%nat \/ count_char ":" timestamp <> 2%nat ->
         timestamp_to_seconds timestamp = Raised ValueError)
  /\ (forall time_str,
         count_char ":" time_str <> 2%nat ->
         time_to_seconds time_str = Raised ValueError)
  /\ (forall timestamp c,
         char_in c timestamp -> int_char c = false ->
         c <> ":"%char -> c <> ","%char ->
         timestamp_to_seconds timestamp = Raised ValueError)
  /\ (forall time_str c,
         char_in c time_str -> int_char c = false -> c <> ":"%char ->
         time_to_seconds time_str = Raised ValueError)
  /\ (forall hh mm ss mmm,
         all_digits hh = true -> all_digits mm = true ->
         all_digits ss = true -> all_digits mmm = true ->
         (String.length hh <= 4300)%nat -> (String.length mm <= 4300)%nat ->
         (String.length ss <= 4300)%nat -> (String.length mmm <= 4300)%nat ->
         (float_limit <= decimal_value mmm
          \/ float_limit <= decimal_value hh * 3600 + decimal_value mm * 60
                             + decimal_value ss)%Z ->
         timestamp_to_seconds (track_timecode hh mm ss mmm)
         = Raised OverflowError)
  /\ timestamp_to_seconds (track_timecode (str_repeat "9" 400) "0" "0" "0")
     = Raised OverflowError.
Proof.
  split.
  { intros hh mm ss mmm Hh Hm Hs Hms Lh Lm Ls Lms. split.
    - now apply timestamp_to_seconds_digits.
    - now apply time_to_seconds_digits. }
  split; [eexists; split; reflexivity |].
  split; [eexists; split; reflexivity |].
  split; [reflexivity |].
  split.
  { intros timestamp [H | H];
      [now apply timestamp_to_seconds_commas
      | now apply timestamp_to_seconds_colons]. }
  split; [exact time_to_seconds_colons |].
  split; [exact timestamp_to_seconds_bad_char |].
  split; [exact time_to_seconds_bad_char |].
  split.
  { intros hh mm ss mmm Hh Hm Hs Hms _ _ _ _ Hbig.
    now apply timestamp_to_seconds_overflows. }
  vm_compute. reflexivity.
Qed.

Lemma decode_fields_of_digits_witness :
  timestamp_to_seconds (track_timecode "01" "02" "03" "004")
  = Returned (inject_Z (decimal_value "01" * 3600 + decimal_value "02" * 60
                        + decimal_value "03")
              + inject_Z (decimal_value "004") / 1000)
  /\ time_to_seconds (window_timecode "01" "02" "03")
     = Returned (decimal_value "01" * 3600 + decimal_value "02" * 60
                 + decimal_value "03")%Z.
Proof.
  apply (proj1 decode_fields_of_digits "01" "02" "03" "004");
    first [reflexivity | simpl; lia].
Defined.

(** ** The timestamps the parser hands to the decoder *)

Lemma match_classes_sound (pat : list (ascii -> bool)) :
  forall s g r,
    match_classes pat s = Some (g, r) ->
    in_classes pat g /\ s = (g ++ r)%string.
Proof.
  induction pat as [| p pat IH]; intros s g r H; cbn [match_classes] in H.
  - injection H as <- <-. split; [exact I | reflexivity].
  - destruct s as [| c s]; [discriminate |].
    destruct (p c) eqn:Hp; [| discriminate].
    destruct (match_classes pat s) as [[g' r'] |] eqn:Hm; [| discriminate].
    injection H as <- <-. destruct (IH _ _ _ Hm) as [Hg ->].
    split; [split; assumption | reflexivity].
Qed.

Lemma is_char_eq (a c : ascii) : is_char a c = true -> c = a.
Proof.
  unfold is_char. apply Ascii.eqb_eq.
Qed.

(** A string of the pattern [\d{2}:\d{2}:\d{2},\d{3}] is a track timecode
    with fields of digits. *)
Lemma timestamp_pattern_fields (g : string) :
  in_classes timestamp_pattern g ->
  exists hh mm ss mmm,
    g = track_timecode hh mm ss mmm
    /\ (all_digits hh = true /\ all_digits mm = true
        /\ all_digits ss = true /\ all_digits mmm = true)
    /\ (String.length hh = 2 /\ String.length mm = 2
        /\ String.length ss = 2 /\ String.length mmm = 3)%nat.
Proof.
  unfold timestamp_pattern. intros H.
  do 12 (destruct g as [| ? g]; cbn [in_classes] in H; [contradiction |];
         destruct H as [? H]).
  destruct g; [| contradiction].
  repeat match goal with
         | Hc : is_char _ _ = true |- _ => apply is_char_eq in Hc; subst
         end.
  eexists (String _ (String _ "")), (String _ (String _ "")),
          (String _ (String _ "")), (String _ (String _ (String _ ""))).
  split; [reflexivity |].
  unfold all_digits. cbn [nonempty digits_only andb].
  repeat match goal with
         | Hd : isdigit _ = true |- _ => rewrite Hd; clear Hd
         end.
  cbn [String.length]. repeat split.
Qed.

Lemma timestamp_group_decodes (s g r : string) :
  match_classes timestamp_pattern s = Some (g, r) ->
  exists q, timestamp_to_seconds g = Returned q.
Proof.
  intros H. apply match_classes_sound in H. destruct H as [Hg _].
  destruct (timestamp_pattern_fields g Hg)
    as (hh & mm & ss & mmm & -> & (Hh & Hm & Hs & Hms) & (Lh & Lm & Ls & Lms)).
  eexists. apply timestamp_to_seconds_digits; auto; lia.
Qed.

Lemma re_match_timestamps_decode (timestamp_line start_time end_time : string) :
  re_match_timestamps timestamp_line = Some (start_time, end_time) ->
  exists q1 q2,
    timestamp_to_seconds start_time = Returned q1
    /\ timestamp_to_seconds end_time = Returned q2.
Proof.
  unfold re_match_timestamps. intros H.
  destruct (match_classes timestamp_pattern timestamp_line)
    as [[g1 r1] |] eqn:H1; [| discriminate].
  destruct (match_classes arrow_pattern (lstrip_by isspace r1))
    as [[a r2] |]; [| discriminate].
  destruct (match_classes timestamp_pattern (lstrip_by isspace r2))
    as [[g2 r3] |] eqn:H2; [| discriminate].
  injection H as <- <-.
  destruct (timestamp_group_decodes _ _ _ H1) as [q1 Hq1].
  destruct (timestamp_group_decodes _ _ _ H2) as [q2 Hq2].
  now exists q1, q2.
Qed.

(** The loop over the blocks raises nothing: a timestamp reaches the
    decoder only after the regular expression has matched it. *)
Lemma parse_blocks_returns (blocks : list string) :
  forall subtitles,
    exists parsed, parse_blocks blocks subtitles = Returned parsed.
Proof.
  induction blocks as [| block rest IH]; intros subtitles.
  - now exists subtitles.
  - cbn [parse_blocks]. cbv zeta.
    destruct (3 <=? List.length (str_split_on LF (str_strip block)))%nat;
      [| apply IH].
    destruct (re_match_timestamps
                (nth 1 (str_split_on LF (str_strip block)) ""%string))
      as [[start_time end_time] |] eqn:Hm; [| apply IH].
    destruct (re_match_timestamps_decode _ _ _ Hm) as (q1 & q2 & -> & ->).
    apply IH.
Qed.

(** X1.  On a file that can be read, the body of [parse_srt_file] raises
    nothing and its handler is never reached: whatever the regular
    expression matches, [timestamp_to_seconds] decodes. *)
Theorem parse_srt_file_readable (content : string) :
  parse_srt_file (Contents content) = parse_srt_body (Contents content)
  /\ exists parsed, parse_srt_body (Contents content) = Returned parsed.
Proof.
  unfold parse_srt_file, parse_srt_body, read, try_except.
  destruct (parse_blocks_returns (re_split_blank (str_strip content)) [])
    as [parsed ->].
  split; [reflexivity | now exists parsed].
Qed.

(** ** Words, [str.split()] and [' '.join] *)

Lemma str_split_words_run (w : string) :
  forall cur rest,
    no_space w = true ->
    str_split_words cur (w ++ rest) = str_split_words (cur ++ w) rest.
Proof.
  induction w as [| c w IH]; intros cur rest Hw.
  - cbn [append]. now rewrite append_empty_r.
  - cbn [no_space] in Hw. apply andb_true_iff in Hw. destruct Hw as [Hc Hw].
    apply negb_true_iff in Hc.
    cbn [append str_split_words]. rewrite Hc, IH by exact Hw.
    now rewrite snoc_append.
Qed.

Lemma nonempty_is_word (w : string) : is_word w = true -> nonempty w = true.
Proof.
  unfold is_word. intros H. apply andb_true_iff in H. tauto.
Qed.

Lemma no_space_is_word (w : string) : is_word w = true -> no_space w = true.
Proof.
  unfold is_word. intros H. apply andb_true_iff in H. tauto.
Qed.

(** Joining words with single spaces and splitting again gives the words
    back. *)
Lemma str_split_join (words : list string) :
  Forall (fun w => is_word w = true) words ->
  str_split (str_join words) = words.
Proof.
  unfold str_split, str_join.
  induction words as [| w rest IH]; intros Hwords; [reflexivity |].
  inversion Hwords as [| w' rest' Hw Hrest]; subst.
  destruct rest as [| w2 rest].
  - cbn [String.concat].
    rewrite <- (append_empty_r w) at 1.
    rewrite str_split_words_run by now apply no_space_is_word.
    cbn [append str_split_words]. now rewrite nonempty_is_word.
  - change (String.concat " " (w :: w2 :: rest))
      with (w ++ String " " (String.concat " " (w2 :: rest)))%string.
    rewrite str_split_words_run by now apply no_space_is_word.
    cbn [append]. cbn [str_split_words].
    change (isspace " ") with true. cbv iota.
    rewrite nonempty_is_word by exact Hw.
    now rewrite IH.
Qed.

Lemma no_space_snoc (cur : string) (c : ascii) :
  no_space (snoc cur c) = no_space cur && negb (isspace c).
Proof.
  unfold snoc. induction cur as [| d cur IH]; simpl.
  - now rewrite andb_true_r.
  - rewrite IH. now rewrite andb_assoc.
Qed.

Lemma nonempty_snoc (cur : string) (c : ascii) : nonempty (snoc cur c) = true.
Proof.
  now destruct cur.
Qed.

Lemma str_split_words_are_words (s : string) :
  forall cur,
    cur = ""%string \/ is_word cur = true ->
    Forall (fun w => is_word w = true) (str_split_words cur s).
Proof.
  induction s as [| c s IH]; intros cur Hcur; cbn [str_split_words].
  - destruct (nonempty cur) eqn:E; [| constructor].
    constructor; [| constructor].
    destruct Hcur as [-> | H]; [discriminate | exact H].
  - destruct (isspace c) eqn:Hc.
    + destruct (nonempty cur) eqn:E.
      * constructor; [| apply IH; now left].
        destruct Hcur as [-> | H]; [discriminate | exact H].
      * apply IH. now left.
    + apply IH. right. unfold is_word.
      rewrite nonempty_snoc, no_space_snoc, Hc. cbn [andb negb].
      rewrite andb_true_r.
      destruct Hcur as [-> | H]; [reflexivity | now apply no_space_is_word].
Qed.

Lemma str_split_are_words (text : string) :
  Forall (fun w => is_word w = true) (str_split text).
Proof.
  apply str_split_words_are_words. now left.
Qed.

(** X8.  [text.split()] gives words (non-empty, without white space), and
    on any list of words [' '.join] followed by [split()] is the identity:
    the text a caption shows has exactly the words it was built from. *)
Theorem split_join_round_trip :
  (forall text, Forall (fun w => is_word w = true) (str_split text))
  /\ (forall words,
         Forall (fun w => is_word w = true) words ->
         str_split (str_join words) = words)
  /\ (forall text, str_split (str_join (str_split text)) = str_split text).
Proof.
  split; [exact str_split_are_words |].
  split; [exact str_split_join |].
  intros text. apply str_split_join, str_split_are_words.
Qed.

Lemma split_join_round_trip_witness :
  str_split (str_join ["This"; "is"; "a"; "test"]%string)
  = ["This"; "is"; "a"; "test"]%string.
Proof.
  apply (proj1 (proj2 split_join_round_trip)).
  repeat constructor.
Defined.

(** ** The words of the captions *)

Lemma Forall_firstn {A : Type} (P : A -> Prop) (n : nat) (xs : list A) :
  Forall P xs -> Forall P (firstn n xs).
Proof.
  revert n. induction xs as [| x xs IH]; intros n H; destruct n; simpl;
    try constructor; inversion H; subst; auto.
Qed.

Lemma Forall_skipn {A : Type} (P : A -> Prop) (n : nat) (xs : list A) :
  Forall P xs -> Forall P (skipn n xs).
Proof.
  revert n. induction xs as [| x xs IH]; intros n H; destruct n; simpl;
    try assumption; inversion H; subst; auto.
Qed.

Lemma Forall_slice {A : Type} (P : A -> Prop) (i j : nat) (xs : list A) :
  Forall P xs -> Forall P (slice xs i j).
Proof.
  intros H. unfold slice. now apply Forall_firstn, Forall_skipn.
Qed.

(** The groups of [max_words] words, one after the other, are the words. *)
Lemma flat_map_slices {A : Type} (xs : list A) (fuel : nat) :
  forall start : nat,
    (List.length xs - start <= fuel)%nat ->
    flat_map (fun i => slice xs i (i + max_words))
             (range_from fuel start (List.length xs) max_words)
    = skipn start xs.
Proof.
  induction fuel as [| fuel IH]; intros start Hfuel.
  - cbn [range_from flat_map]. symmetry. apply skipn_all2. lia.
  - cbn [range_from]. destruct (start <? List.length xs)%nat eqn:E.
    + apply Nat.ltb_lt in E. cbn [flat_map].
      rewrite IH by (unfold max_words; lia).
      unfold slice. replace (start + max_words - start)%nat with max_words by lia.
      rewrite (Nat.add_comm start max_words), <- skipn_skipn.
      apply firstn_skipn.
    + apply Nat.ltb_ge in E. cbn [flat_map]. symmetry. apply skipn_all2. lia.
Qed.

Lemma create_subtitle_clip_many (text : string) (start_time end_time : Q)
  (video_size : video_size_t) :
  (max_words < List.length (str_split text))%nat ->
  create_subtitle_clip text start_time end_time video_size
  = map (chunk_clip start_time (end_time - start_time) video_size
                    (str_split text))
        (range 0 (List.length (str_split text)) max_words).
Proof.
  intros Hmany. unfold create_subtitle_clip.
  replace (max_words <? List.length (str_split text))%nat with true
    by (symmetry; apply Nat.ltb_lt; exact Hmany).
  now rewrite chunk_loop_map.
Qed.

Lemma create_subtitle_clip_few (text : string) (start_time end_time : Q)
  (video_size : video_size_t) :
  (List.length (str_split text) <= max_words)%nat ->
  create_subtitle_clip text start_time end_time video_size
  = [caption_clip video_size (str_join (str_split text))
                  (end_time - start_time) start_time].
Proof.
  intros Hfew. unfold create_subtitle_clip.
  replace (max_words <? List.length (str_split text))%nat with false
    by (symmetry; apply Nat.ltb_ge; exact Hfew).
  reflexivity.
Qed.

(** X10.  Whatever the text, the captions show its words, all of them, once
    each and in order, and no caption shows more than [max_words] (5)
    words. *)
Theorem captions_keep_the_words
  (text : string) (start_time end_time : Q) (video_size : video_size_t) :
  clip_words (create_subtitle_clip text start_time end_time video_size)
  = str_split text
  /\ Forall (fun c => (List.length (str_split (clip_txt c)) <= max_words)%nat)
            (create_subtitle_clip text start_time end_time video_size).
Proof.
  pose proof (str_split_are_words text) as Hwords.
  destruct (Nat.le_gt_cases (List.length (str_split text)) max_words)
    as [Hfew | Hmany].
  - rewrite create_subtitle_clip_few by exact Hfew.
    unfold clip_words. cbn [flat_map clip_txt caption_clip].
    rewrite str_split_join by exact Hwords. rewrite app_nil_r.
    split; [reflexivity |]. constructor; [| constructor].
    cbn [clip_txt caption_clip]. now rewrite str_split_join by exact Hwords.
  - rewrite create_subtitle_clip_many by exact Hmany.
    assert (Htxt : forall i,
               str_split
                 (clip_txt (chunk_clip start_time (end_time - start_time)
                                       video_size (str_split text) i))
               = slice (str_split text) i (i + max_words)).
    { intros i. unfold chunk_clip, caption_clip. cbn [clip_txt].
      apply str_split_join. now apply Forall_slice. }
    split.
    + unfold clip_words. rewrite flat_map_concat_map, map_map.
      rewrite (map_ext _ _ Htxt), <- flat_map_concat_map.
      unfold range. now rewrite flat_map_slices by lia.
    + apply Forall_map, Forall_forall. intros i _.
      rewrite Htxt, length_slice. lia.
Qed.

(** ** The captions of any text *)

Lemma In_range_lt (stop step i : nat) :
  (0 < step)%nat -> In i (range 0 stop step) -> (i < stop)%nat.
Proof.
  intros Hstep Hin. apply In_nth_error in Hin. destruct Hin as [j Hj].
  rewrite nth_error_range in Hj by exact Hstep.
  destruct (j * step <? stop)%nat eqn:E; [| discriminate].
  apply Nat.ltb_lt in E. injection Hj as <-. exact E.
Qed.

Section CaptionBounds.

Variables (start_time end_time : Q) (video_size : video_size_t).
Variable words : list string.
Hypothesis many_words : (max_words < List.length words)%nat.
Hypothesis ordered : start_time <= end_time.

Let duration : Q := end_time - start_time.
Let clip_at := chunk_clip start_time duration video_size words.

(** A group starts and ends within the entry. *)
Lemma chunk_within (i : nat) :
  (i < List.length words)%nat ->
  start_time <= clip_start (clip_at i)
  /\ clip_start (clip_at i) <= clip_end (clip_at i)
  /\ clip_end (clip_at i) <= end_time.
Proof.
  intros Hi.
  pose proof (Qlen_many_pos words many_words) as Hpos.
  set (m := Nat.min max_words (List.length words - i)).
  set (x := Qnat i / Qlen words).
  set (y := Qnat m / Qlen words).
  assert (Hx : 0 <= x).
  { apply Qle_shift_div_l; [exact Hpos |]. pose proof (Qnat_nonneg i). lra. }
  assert (Hy : 0 <= y).
  { apply Qle_shift_div_l; [exact Hpos |]. pose proof (Qnat_nonneg m). lra. }
  assert (Hxy : x + y <= 1).
  { assert (Hsum : x + y == (Qnat i + Qnat m) / Qlen words)
      by (unfold x, y; field; lra).
    rewrite Hsum. apply Qle_shift_div_r; [exact Hpos |].
    rewrite <- Qnat_add, Qlen_Qnat, Qmult_1_l. apply Qnat_le. unfold m. lia. }
  assert (Hstart : clip_start (clip_at i) == start_time + duration * x).
  { unfold clip_at, duration. rewrite chunk_start by exact many_words.
    reflexivity. }
  assert (Hdur : clip_duration (clip_at i) == duration * y).
  { unfold clip_at, duration. rewrite chunk_duration, Qlen_slice.
    fold m. unfold y. field. lra. }
  assert (Hd : 0 <= duration) by (unfold duration; lra).
  assert (Hdx : 0 <= duration * x) by (apply Qmult_le_0_compat; assumption).
  assert (Hdy : 0 <= duration * y) by (apply Qmult_le_0_compat; assumption).
  assert (Hrest : 0 <= duration * (1 - (x + y)))
    by (apply Qmult_le_0_compat; lra).
  assert (Hring : duration * (1 - (x + y))
                  == duration - duration * x - duration * y) by ring.
  unfold clip_end. rewrite Hstart, Hdur. unfold duration in *.
  repeat split; lra.
Qed.

End CaptionBounds.

Lemma create_subtitle_clip_nonempty
  (text : string) (start_time end_time : Q) (video_size : video_size_t) :
  create_subtitle_clip text start_time end_time video_size <> [].
Proof.
  destruct (Nat.le_gt_cases (List.length (str_split text)) max_words)
    as [Hfew | Hmany].
  - rewrite create_subtitle_clip_few by exact Hfew. discriminate.
  - rewrite create_subtitle_clip_many by exact Hmany. intros Hnil.
    pose proof (nth_error_chunks start_time (end_time - start_time)
                  video_size (str_split text) 0) as Hnth.
    rewrite Hnil in Hnth. cbn [Nat.mul nth_error] in Hnth.
    replace (0 <? List.length (str_split text))%nat with true in Hnth
      by (symmetry; apply Nat.ltb_lt; lia).
    discriminate.
Qed.

(** X9.  Whatever the text and the times, [create_subtitle_clip] returns at
    least one clip, and the durations of its clips add up to
    [end_time - start_time]. *)
Theorem captions_never_empty
  (text : string) (start_time end_time : Q) (video_size : video_size_t) :
  create_subtitle_clip text start_time end_time video_size <> []
  /\ total_duration (create_subtitle_clip text start_time end_time video_size)
     == end_time - start_time.
Proof.
  split; [apply create_subtitle_clip_nonempty |].
  destruct (Nat.le_gt_cases (List.length (str_split text)) max_words)
    as [Hfew | Hmany].
  - rewrite create_subtitle_clip_few by exact Hfew.
    cbn [total_duration fold_right clip_duration caption_clip]. lra.
  - rewrite create_subtitle_clip_many by exact Hmany.
    pose proof (Qlen_many_pos (str_split text) Hmany) as Hpos.
    unfold range. rewrite total_duration_from by (try exact Hmany; lia).
    change (Qnat 0) with 0. field. lra.
Qed.

Lemma caption_clip_within
  (text : string) (start_time end_time : Q) (video_size : video_size_t)
  (c : TextClip) :
  start_time <= end_time ->
  In c (create_subtitle_clip text start_time end_time video_size) ->
  start_time <= clip_start c
  /\ clip_start c <= clip_end c
  /\ clip_end c <= end_time.
Proof.
  intros Hle.
  destruct (Nat.le_gt_cases (List.length (str_split text)) max_words)
    as [Hfew | Hmany].
  - rewrite create_subtitle_clip_few by exact Hfew.
    intros [<- | []].
    unfold clip_end. cbn [clip_start clip_duration caption_clip].
    repeat split; lra.
  - rewrite create_subtitle_clip_many by exact Hmany.
    intros Hin. apply in_map_iff in Hin. destruct Hin as (i & <- & Hi).
    apply chunk_within; try assumption.
    apply In_range_lt in Hi; [exact Hi | unfold max_words; lia].
Qed.

(** X11.  With the times as exact rationals and [start_time <= end_time],
    every clip of [create_subtitle_clip] starts at or after [start_time],
    ends at or before [end_time], and does not end before it starts.  Over
    binary64 the end of the last caption, its start plus its duration, can
    pass [end_time] by a rounding error. *)
Theorem captions_within_entry
  (text : string) (start_time end_time : Q) (video_size : video_size_t) :
  start_time <= end_time ->
  Forall (fun c => start_time <= clip_start c
                   /\ clip_start c <= clip_end c
                   /\ clip_end c <= end_time)
         (create_subtitle_clip text start_time end_time video_size).
Proof.
  intros Hle. apply Forall_forall. intros c Hc.
  now apply (caption_clip_within text start_time end_time video_size).
Qed.

Lemma captions_within_entry_witness :
  Forall (fun c => 2 <= clip_start c
                   /\ clip_start c <= clip_end c
                   /\ clip_end c <= 6)
         (create_subtitle_clip scenario_text 2 6 (1080, 1920)%Z).
Proof.
  apply (captions_within_entry scenario_text 2 6 (1080, 1920)%Z).
  vm_compute. discriminate.
Defined.

(** ** The highlights of any entry *)

Lemma highlight_loop_none (start_time end_time : Q) (video_size : video_size_t)
  (time_per_word : Q) (words : list string) :
  time_per_word <= 0 ->
  forall (i : nat) (clips : list TextClip),
    highlight_loop start_time end_time video_size time_per_word i words clips
    = clips.
Proof.
  intros Htpw. induction words as [| word rest IH]; intros i clips;
    [reflexivity |].
  cbn [highlight_loop]. cbv zeta.
  assert (Hd : Qle_bool
                 (py_min (start_time + Qnat (i + 1) * time_per_word) end_time
                  - (start_time + Qnat i * time_per_word)) 0 = true).
  { apply Qle_bool_iff. rewrite py_min_Qmin.
    destruct (Qmin_cases (start_time + Qnat (i + 1) * time_per_word) end_time)
      as [[Hlt ->] | [Hle ->]]; pose proof (Qnat_succ i) as Hs;
      [assert (end_time - (start_time + Qnat i * time_per_word)
               <= start_time + Qnat (i + 1) * time_per_word
                  - (start_time + Qnat i * time_per_word)) by lra |];
      rewrite Hs in *; lra. }
  rewrite Hd. apply IH.
Qed.

(** X6.  An entry that does not end after it starts gets no highlight,
    whatever its text. *)
Theorem no_highlight_without_duration
  (text : string) (start_time end_time : Q) (video_size : video_size_t) :
  end_time <= start_time ->
  create_word_highlighting_clips text start_time end_time video_size = [].
Proof.
  intros Hle. unfold create_word_highlighting_clips.
  destruct (str_split text) as [| word rest] eqn:Hwords; [reflexivity |].
  apply highlight_loop_none.
  apply Qle_shift_div_r.
  - rewrite Qlen_Qnat. apply Qnat_pos. simpl. lia.
  - lra.
Qed.

Lemma no_highlight_without_duration_witness :
  create_word_highlighting_clips scenario_text 6 6 (1080, 1920)%Z = [].
Proof.
  apply (no_highlight_without_duration scenario_text 6 6 (1080, 1920)%Z).
  vm_compute. discriminate.
Defined.

Section HighlightTiling.

Variables (start_time end_time : Q) (video_size : video_size_t).
Variable words : list string.
Hypothesis words_nonempty : words <> [].
Hypothesis positive_duration : start_time < end_time.

Let time_per_word : Q := (end_time - start_time) / Qlen words.

Lemma highlight_clip_duration (i : nat) (word : string) :
  (i < List.length words)%nat ->
  clip_duration
    (highlight_clip start_time end_time video_size time_per_word i word)
  == time_per_word.
Proof.
  intros Hi.
  destruct (highlight_clip_interval start_time end_time video_size words
              words_nonempty positive_duration i word Hi)
    as (Hs & _ & He & _).
  fold time_per_word in Hs, He. unfold clip_end in He.
  pose proof (Qnat_succ i) as Hsucc. rewrite Hsucc in He. lra.
Qed.

Lemma total_duration_highlights (ws : list string) :
  forall i,
    (i + List.length ws <= List.length words)%nat ->
    total_duration
      (highlights_from start_time end_time video_size time_per_word i ws)
    == Qlen ws * time_per_word.
Proof.
  induction ws as [| w ws IH]; intros i Hi.
  - cbn [highlights_from total_duration fold_right].
    change (Qlen (@nil string)) with 0. lra.
  - cbn [highlights_from total_duration fold_right].
    fold (total_duration
            (highlights_from start_time end_time video_size time_per_word
                             (S i) ws)).
    rewrite IH by (simpl in Hi; lia).
    rewrite highlight_clip_duration by (simpl in Hi; lia).
    rewrite !Qlen_Qnat.
    replace (List.length (w :: ws)) with (List.length ws + 1)%nat
      by (simpl; lia).
    rewrite Qnat_succ. lra.
Qed.

End HighlightTiling.

(** X7.  For an entry with at least one word and [start < end], the
    highlights tile the entry: the first starts at [start], each one starts
    where the one before ends, the last ends at [end], every one lasts
    [duration / len(words)] and the durations add up to the duration. *)
Theorem highlights_tile
  (text : string) (start_time end_time : Q) (video_size : video_size_t) :
  str_split text <> [] ->
  start_time < end_time ->
  let words := str_split text in
  let clips :=
    create_word_highlighting_clips text start_time end_time video_size in
  (exists first,
      nth_error clips 0 = Some first /\ clip_start first == start_time)
  /\ (exists last,
         nth_error clips (List.length clips - 1) = Some last
         /\ clip_end last == end_time)
  /\ (forall j c c',
         nth_error clips j = Some c ->
         nth_error clips (S j) = Some c' ->
         clip_start c' == clip_end c)
  /\ total_duration clips == end_time - start_time
  /\ Forall (fun c => clip_duration c == (end_time - start_time) / Qlen words)
            clips.
Proof.
  intros Hwords Hlt words clips.
  set (time_per_word := (end_time - start_time) / Qlen words).
  assert (Hclips : clips = highlights_from start_time end_time video_size
                                           time_per_word 0 words)
    by (apply highlights_are_all_words; auto).
  assert (Hlen : List.length clips = List.length words)
    by (rewrite Hclips; apply length_highlights_from).
  assert (Hn : (0 < List.length words)%nat)
    by (unfold words; destruct (str_split text); [congruence | simpl; lia]).
  assert (Hfill : Qlen words * time_per_word == end_time - start_time)
    by (apply words_fill_duration; assumption).
  assert (Hnth : forall i c,
             nth_error clips i = Some c ->
             (i < List.length words)%nat
             /\ clip_start c == start_time + Qnat i * time_per_word
             /\ clip_end c == start_time + Qnat (i + 1) * time_per_word
             /\ clip_duration c == time_per_word).
  { intros i c Hc. rewrite Hclips, nth_error_highlights_from in Hc.
    destruct (nth_error words i) as [word |] eqn:Hw; [| discriminate].
    assert (Hi : (i < List.length words)%nat)
      by (apply nth_error_Some; congruence).
    cbn [option_map Nat.add] in Hc. injection Hc as <-.
    destruct (highlight_clip_interval start_time end_time video_size words
                Hwords Hlt i word Hi) as (Hs & _ & He & _).
    pose proof (highlight_clip_duration start_time end_time video_size words
                  Hwords Hlt i word Hi) as Hd.
    repeat split; assumption. }
  split; [| split; [| split; [| split]]].
  - destruct (nth_error clips 0) as [first |] eqn:Hfirst.
    2: { apply nth_error_None in Hfirst. lia. }
    exists first. split; [reflexivity |].
    destruct (Hnth _ _ Hfirst) as (_ & Hs & _). rewrite Hs.
    change (Qnat 0) with 0. lra.
  - destruct (nth_error clips (List.length clips - 1)) as [last |] eqn:Hlast.
    2: { apply nth_error_None in Hlast. lia. }
    exists last. split; [reflexivity |].
    destruct (Hnth _ _ Hlast) as (_ & _ & He & _). rewrite He.
    replace (List.length clips - 1 + 1)%nat with (List.length words) by lia.
    rewrite <- Qlen_Qnat, Hfill. lra.
  - intros j c c' Hc Hc'.
    destruct (Hnth _ _ Hc) as (_ & _ & He & _).
    destruct (Hnth _ _ Hc') as (_ & Hs & _).
    rewrite He, Hs. replace (j + 1)%nat with (S j) by lia. reflexivity.
  - rewrite Hclips.
    pose proof (total_duration_highlights start_time end_time video_size
                  words Hwords Hlt words 0%nat (le_n _)) as Htotal.
    etransitivity; [exact Htotal | exact Hfill].
  - apply Forall_forall. intros c Hc.
    apply In_nth_error in Hc. destruct Hc as [i Hi].
    now destruct (Hnth _ _ Hi) as (_ & _ & _ & Hd).
Qed.

Lemma highlights_tile_witness :
  total_duration
    (create_word_highlighting_clips scenario_text 2 6 (1080, 1920)%Z)
  == 6 - 2.
Proof.
  apply (highlights_tile scenario_text 2 6 (1080, 1920)%Z).
  - vm_compute. discriminate.
  - reflexivity.
Defined.

(** ** The entries the parser returns *)

Lemma parse_blocks_acc (blocks : list string) :
  forall subtitles,
    exists parsed,
      parse_blocks blocks [] = Returned parsed
      /\ parse_blocks blocks subtitles = Returned (subtitles ++ parsed).
Proof.
  induction blocks as [| block rest IH]; intros subtitles.
  - exists []. split; [reflexivity | now rewrite app_nil_r].
  - cbn [parse_blocks]. cbv zeta.
    destruct (3 <=? List.length (str_split_on LF (str_strip block)))%nat;
      [| apply IH].
    destruct (re_match_timestamps
                (nth 1 (str_split_on LF (str_strip block)) ""%string))
      as [[start_time end_time] |] eqn:Hm; [| apply IH].
    destruct (re_match_timestamps_decode _ _ _ Hm) as (q1 & q2 & -> & ->).
    set (entry := mkSub q1 q2 _).
    destruct (IH (subtitles ++ [entry])) as (tail & Hnil & Hacc).
    destruct (IH ([] ++ [entry])) as (tail' & Hnil' & Hone).
    exists (entry :: tail'). split.
    + rewrite Hone. reflexivity.
    + rewrite Hacc, <- app_assoc. cbn [app]. congruence.
Qed.

Lemma parse_blocks_app (blocks1 blocks2 : list string) :
  forall subtitles,
    parse_blocks (blocks1 ++ blocks2) subtitles
    = match parse_blocks blocks1 subtitles with
      | Returned parsed => parse_blocks blocks2 parsed
      | Raised e => Raised e
      end.
Proof.
  induction blocks1 as [| block rest IH]; intros subtitles; [reflexivity |].
  cbn [app parse_blocks]. cbv zeta.
  destruct (3 <=? List.length (str_split_on LF (str_strip block)))%nat;
    [| apply IH].
  destruct (re_match_timestamps
              (nth 1 (str_split_on LF (str_strip block)) ""%string))
    as [[start_time end_time] |]; [| apply IH].
  destruct (timestamp_to_seconds start_time); [| reflexivity].
  destruct (timestamp_to_seconds end_time); [| reflexivity].
  apply IH.
Qed.

(** X2.  The entries of a list of blocks are the entries of its first part
    followed by those of the rest, and a block that is not well formed
    gives no entry and changes no other. *)
Theorem parse_blocks_compositional (blocks1 blocks2 : list string) :
  (exists parsed1 parsed2,
      parse_blocks blocks1 [] = Returned parsed1
      /\ parse_blocks blocks2 [] = Returned parsed2
      /\ parse_blocks (blocks1 ++ blocks2) [] = Returned (parsed1 ++ parsed2))
  /\ (forall block,
         well_formed_block block = false ->
         parse_blocks (blocks1 ++ block :: blocks2) []
         = parse_blocks (blocks1 ++ blocks2) []).
Proof.
  destruct (parse_blocks_acc blocks1 []) as (parsed1 & H1 & _).
  split.
  - destruct (parse_blocks_acc blocks2 parsed1) as (parsed2 & H2 & H12).
    exists parsed1, parsed2. split; [exact H1 |]. split; [exact H2 |].
    now rewrite parse_blocks_app, H1.
  - intros block Hbad. rewrite !parse_blocks_app, H1.
    cbn [parse_blocks]. cbv zeta. unfold well_formed_block in Hbad.
    destruct (3 <=? List.length (str_split_on LF (str_strip block)))%nat;
      [| reflexivity].
    destruct (re_match_timestamps
                (nth 1 (str_split_on LF (str_strip block)) ""%string))
      as [[start_time end_time] |]; [discriminate | reflexivity].
Qed.

Lemma Forall_app_snoc {A : Type} (P : A -> Prop) (xs : list A) (x : A) :
  Forall P xs -> P x -> Forall P (xs ++ [x]).
Proof.
  intros Hxs Hx. apply Forall_app. split; [exact Hxs | now constructor].
Qed.

(** What holds of every entry built in the loop holds of every entry
    returned. *)
Lemma parse_blocks_invariant (P : Sub -> Prop) :
  (forall block start_time end_time start_seconds end_seconds,
      let lines := str_split_on LF (str_strip block) in
      (3 <= List.length lines)%nat ->
      re_match_timestamps (nth 1 lines ""%string) = Some (start_time, end_time) ->
      timestamp_to_seconds start_time = Returned start_seconds ->
      timestamp_to_seconds end_time = Returned end_seconds ->
      P (mkSub start_seconds end_seconds
               (str_strip (str_join (skipn 2 lines))))) ->
  forall blocks subtitles parsed,
    Forall P subtitles ->
    parse_blocks blocks subtitles = Returned parsed ->
    Forall P parsed.
Proof.
  intros Hbody. induction blocks as [| block rest IH];
    intros subtitles parsed Hacc Hparse.
  - cbn [parse_blocks] in Hparse. now injection Hparse as <-.
  - cbn [parse_blocks] in Hparse. cbv zeta in Hparse.
    destruct (3 <=? List.length (str_split_on LF (str_strip block)))%nat
      eqn:Hlen; [| now apply (IH subtitles)].
    apply Nat.leb_le in Hlen.
    destruct (re_match_timestamps
                (nth 1 (str_split_on LF (str_strip block)) ""%string))
      as [[start_time end_time] |] eqn:Hm; [| now apply (IH subtitles)].
    destruct (timestamp_to_seconds start_time) as [q1 |] eqn:H1;
      [| discriminate].
    destruct (timestamp_to_seconds end_time) as [q2 |] eqn:H2;
      [| discriminate].
    apply (IH _ _ (Forall_app_snoc _ _ _ Hacc
                     (Hbody block start_time end_time q1 q2 Hlen Hm H1 H2))
              Hparse).
Qed.

Lemma parse_srt_file_invariant (P : Sub -> Prop) :
  (forall block start_time end_time start_seconds end_seconds,
      let lines := str_split_on LF (str_strip block) in
      (3 <= List.length lines)%nat ->
      re_match_timestamps (nth 1 lines ""%string) = Some (start_time, end_time) ->
      timestamp_to_seconds start_time = Returned start_seconds ->
      timestamp_to_seconds end_time = Returned end_seconds ->
      P (mkSub start_seconds end_seconds
               (str_strip (str_join (skipn 2 lines))))) ->
  forall srt, exists parsed,
    parse_srt_file srt = Returned parsed /\ Forall P parsed.
Proof.
  intros Hbody [e | content].
  - exists []. split; [reflexivity | constructor].
  - unfold parse_srt_file, parse_srt_body, read, try_except.
    destruct (parse_blocks (re_split_blank (str_strip content)) [])
      as [parsed | e] eqn:Hparse.
    + exists parsed. split; [reflexivity |].
      exact (parse_blocks_invariant P Hbody _ [] parsed (Forall_nil P) Hparse).
    + exists []. split; [reflexivity | constructor].
Qed.

(** *** Times *)

Lemma decimal_from_nonneg (s : string) :
  forall acc, (0 <= acc)%Z -> (0 <= decimal_from acc s)%Z.
Proof.
  induction s as [| c s IH]; intros acc Hacc; cbn [decimal_from];
    [exact Hacc |].
  apply IH. unfold digit_value. lia.
Qed.

Lemma decimal_value_nonneg (s : string) : (0 <= decimal_value s)%Z.
Proof.
  apply decimal_from_nonneg. lia.
Qed.

Lemma re_match_timestamps_groups (timestamp_line start_time end_time : string) :
  re_match_timestamps timestamp_line = Some (start_time, end_time) ->
  in_classes timestamp_pattern start_time
  /\ in_classes timestamp_pattern end_time.
Proof.
  unfold re_match_timestamps. intros H.
  destruct (match_classes timestamp_pattern timestamp_line)
    as [[g1 r1] |] eqn:H1; [| discriminate].
  destruct (match_classes arrow_pattern (lstrip_by isspace r1))
    as [[a r2] |]; [| discriminate].
  destruct (match_classes timestamp_pattern (lstrip_by isspace r2))
    as [[g2 r3] |] eqn:H2; [| discriminate].
  injection H as <- <-.
  apply match_classes_sound in H1, H2. tauto.
Qed.

Lemma timestamp_whole_milliseconds (g : string) (q : Q) :
  in_classes timestamp_pattern g ->
  timestamp_to_seconds g = Returned q ->
  whole_milliseconds q.
Proof.
  intros Hg Hq.
  destruct (timestamp_pattern_fields g Hg)
    as (hh & mm & ss & mmm & -> & (Hh & Hm & Hs & Hms) & (Lh & Lm & Ls & Lms)).
  rewrite timestamp_to_seconds_digits in Hq by (auto; lia).
  injection Hq as <-.
  pose proof (decimal_value_nonneg hh). pose proof (decimal_value_nonneg mm).
  pose proof (decimal_value_nonneg ss). pose proof (decimal_value_nonneg mmm).
  set (whole := (decimal_value hh * 3600 + decimal_value mm * 60
                 + decimal_value ss)%Z).
  exists (whole * 1000 + decimal_value mmm)%Z.
  split; [unfold whole; lia |].
  rewrite (inject_Z_plus (whole * 1000)), (inject_Z_mult whole). field.
Qed.

(** X3.  Every entry the parser returns has a start and an end that are
    whole numbers of milliseconds and are not negative. *)
Theorem parsed_times_are_milliseconds (srt : file) :
  exists parsed,
    parse_srt_file srt = Returned parsed
    /\ Forall (fun entry => whole_milliseconds (sub_start entry)
                            /\ whole_milliseconds (sub_end entry))
              parsed.
Proof.
  apply parse_srt_file_invariant.
  intros block start_time end_time q1 q2 lines Hlen Hm H1 H2.
  apply re_match_timestamps_groups in Hm. destruct Hm as [Hg1 Hg2].
  cbn [sub_start sub_end]. split.
  - now apply (timestamp_whole_milliseconds start_time).
  - now apply (timestamp_whole_milliseconds end_time).
Qed.

(** *** Texts *)

Lemma rstrip_by_last (p : ascii -> bool) (s : string) :
  rstrip_by p s = ""%string
  \/ exists c, last_char (rstrip_by p s) = Some c /\ p c = false.
Proof.
  induction s as [| d s IH]; [now left |].
  cbn [rstrip_by]. destruct (rstrip_by p s) as [| x r] eqn:E.
  - destruct (p d) eqn:Hd; [now left |].
    right. exists d. split; [reflexivity | exact Hd].
  - right. destruct IH as [IH | (c & Hc & Hp)]; [discriminate |].
    exists c. split; [exact Hc | exact Hp].
Qed.

Lemma last_char_snoc (cur : string) (c : ascii) :
  last_char (snoc cur c) = Some c.
Proof.
  unfold snoc. induction cur as [| d cur IH]; [reflexivity |].
  cbn [append last_char]. destruct (cur ++ String c "")%string eqn:E.
  - destruct cur; discriminate.
  - exact IH.
Qed.

Lemma last_char_in (s : string) (c : ascii) :
  last_char s = Some c -> char_in c s.
Proof.
  induction s as [| d s IH]; [discriminate |].
  cbn [last_char char_in]. destruct s as [| x s].
  - intros H. injection H as ->. now left.
  - intros H. right. now apply IH.
Qed.

Lemma str_split_from_nonempty (sep : ascii) (s cur : string) :
  str_split_from sep cur s <> [].
Proof.
  intros H. pose proof (length_str_split_from sep s cur) as Hlen.
  rewrite H in Hlen. discriminate.
Qed.

Lemma last_cons {A : Type} (x d : A) (xs : list A) :
  xs <> [] -> last (x :: xs) d = last xs d.
Proof.
  destruct xs; [contradiction | reflexivity].
Qed.

(** The last part of a split ends as the string does. *)
Lemma str_split_from_last_char (sep c : ascii) (s : string) :
  Ascii.eqb c sep = false ->
  forall cur,
    last_char s = Some c ->
    last_char (last (str_split_from sep cur s) ""%string) = Some c.
Proof.
  intros Hsep. induction s as [| d s IH]; intros cur Hlast; [discriminate |].
  cbn [str_split_from]. destruct s as [| x s].
  - cbn [last_char] in Hlast. injection Hlast as ->.
    rewrite Hsep. cbn [str_split_from last]. apply last_char_snoc.
  - cbn [last_char] in Hlast. fold (last_char (String x s)) in Hlast.
    destruct (Ascii.eqb d sep).
    + rewrite last_cons by apply str_split_from_nonempty. now apply IH.
    + now apply IH.
Qed.

Lemma last_skipn {A : Type} (d : A) (n : nat) (xs : list A) :
  (n < List.length xs)%nat -> last (skipn n xs) d = last xs d.
Proof.
  revert xs. induction n as [| n IH]; intros xs Hn; [reflexivity |].
  destruct xs as [| x xs]; [simpl in Hn; lia |].
  cbn [skipn]. simpl in Hn. rewrite IH by lia.
  symmetry. apply last_cons. destruct xs; [simpl in Hn; lia | discriminate].
Qed.

Lemma last_In {A : Type} (d : A) (xs : list A) :
  xs <> [] -> In (last xs d) xs.
Proof.
  induction xs as [| x xs IH]; [contradiction |]. intros _.
  destruct xs as [| y xs]; [now left |].
  right. apply IH. discriminate.
Qed.

Lemma char_in_append (c : ascii) (a b : string) :
  char_in c (a ++ b) <-> char_in c a \/ char_in c b.
Proof.
  induction a as [| d a IH]; cbn [append char_in]; [tauto |].
  rewrite IH. tauto.
Qed.

Lemma char_in_concat (c : ascii) (sep w : string) (ws : list string) :
  In w ws -> char_in c w -> char_in c (String.concat sep ws).
Proof.
  intros Hin Hc. induction ws as [| x ws IH]; [contradiction |].
  destruct ws as [| y ws].
  - destruct Hin as [-> | []]. exact Hc.
  - change (String.concat sep (x :: y :: ws))
      with (x ++ sep ++ String.concat sep (y :: ws))%string.
    rewrite !char_in_append. destruct Hin as [-> | Hin]; [now left |].
    right. right. now apply IH.
Qed.

Lemma str_split_words_nonempty (c : ascii) (s : string) :
  isspace c = false ->
  forall cur,
    nonempty cur = true \/ char_in c s ->
    str_split_words cur s <> [].
Proof.
  intros Hc. induction s as [| d s IH]; intros cur Hin;
    cbn [str_split_words].
  - destruct Hin as [-> | []]. discriminate.
  - destruct (isspace d) eqn:Hd.
    + destruct (nonempty cur) eqn:E; [discriminate |].
      apply IH. destruct Hin as [Hin | [-> | Hin]]; try congruence.
      now right.
    + apply IH. left. apply nonempty_snoc.
Qed.

Lemma space_is_not (c : ascii) : isspace c = false -> Ascii.eqb c LF = false.
Proof.
  intros Hc. destruct (Ascii.eqb c LF) eqn:E; [| reflexivity].
  apply Ascii.eqb_eq in E. subst c. discriminate.
Qed.

(** The text of a block of three lines or more has a word. *)
Lemma block_text_has_word (block : string) :
  let lines := str_split_on LF (str_strip block) in
  (3 <= List.length lines)%nat ->
  str_split (str_strip (str_join (skipn 2 lines))) <> [].
Proof.
  intros lines Hlen.
  destruct (rstrip_by_last isspace (lstrip_by isspace block))
    as [Hempty | (c & Hlast & Hc)].
  - exfalso. unfold lines, str_strip in Hlen. rewrite Hempty in Hlen.
    simpl in Hlen. lia.
  - fold (str_strip block) in Hlast.
    pose proof (str_split_from_last_char LF c (str_strip block)
                  (space_is_not c Hc) ""%string Hlast) as Hline.
    fold (str_split_on LF (str_strip block)) in Hline. fold lines in Hline.
    rewrite <- (last_skipn ""%string 2 lines) in Hline by lia.
    apply last_char_in in Hline.
    assert (Hne : skipn 2 lines <> []).
    { intros Hnil. pose proof (length_skipn 2 lines) as Hl.
      rewrite Hnil in Hl. simpl in Hl. lia. }
    pose proof (char_in_concat c " " _ _ (last_In ""%string _ Hne) Hline)
      as Hjoin.
    fold (str_join (skipn 2 lines)) in Hjoin.
    apply (str_split_words_nonempty c _ Hc). right.
    unfold str_strip. now apply char_in_rstrip_by, char_in_lstrip_by.
Qed.

(** X4.  The text of every entry the parser returns has at least one word:
    [create_subtitle_clip] and [create_word_highlighting_clips] never get
    an empty list of words from a parsed entry. *)
Theorem parsed_text_has_a_word (srt : file) :
  exists parsed,
    parse_srt_file srt = Returned parsed
    /\ Forall (fun entry => str_split (sub_text entry) <> []) parsed.
Proof.
  apply parse_srt_file_invariant.
  intros block start_time end_time q1 q2 lines Hlen _ _ _.
  cbn [sub_text]. now apply block_text_has_word.
Qed.

(** ** The two decoders *)

Lemma int_returned_no_comma (s : string) (z : Z) :
  int s = Returned z -> ~ char_in "," s.
Proof.
  intros Hint Hin. rewrite (int_bad "," eq_refl s Hin) in Hint. discriminate.
Qed.

(** X5.  The decoder of the track format extends the decoder of the window
    format, as long as the numbers fit a float: when [time_to_seconds]
    returns [z] on a string of at most 4300 characters, with [z] of at most
    [10 ^ 300] in absolute value, appending a comma and a field [mmm] of at
    most three hundred digits gives a string on which
    [timestamp_to_seconds] returns [z + mmm/1000]. *)
Theorem track_decoder_extends_window (time_str mmm : string) (z : Z) :
  time_to_seconds time_str = Returned z ->
  all_digits mmm = true ->
  (String.length time_str <= 4300)%nat ->
  (String.length mmm <= 300)%nat ->
  (Z.abs z <= 10 ^ 300)%Z ->
  timestamp_to_seconds (time_str ++ "," ++ mmm)
  = Returned (inject_Z z + inject_Z (decimal_value mmm) / 1000).
Proof.
  intros Hz Hmmm _ Hshort Hsmall.
  destruct (time_to_seconds_returned _ _ Hz)
    as (h & m & s & zh & zm & zs & Hsplit & Hh & Hm & Hs & ->).
  assert (Hcomma : count_char "," time_str = 0%nat).
  { destruct (count_char "," time_str) eqn:E; [reflexivity |].
    exfalso.
    assert (Hin : char_in "," time_str) by (apply count_char_pos; congruence).
    destruct (char_in_split_part ":" "," time_str eq_refl ""%string
                (or_intror Hin)) as (part & Hpart & Hc).
    fold (str_split_on ":" time_str) in Hpart. rewrite Hsplit in Hpart.
    simpl in Hpart.
    destruct Hpart as [<- | [<- | [<- | []]]];
      [exact (int_returned_no_comma _ _ Hh Hc)
      | exact (int_returned_no_comma _ _ Hm Hc)
      | exact (int_returned_no_comma _ _ Hs Hc)]. }
  assert (Hparts : str_split_on "," (time_str ++ "," ++ mmm)
                   = [time_str; mmm]).
  { unfold str_split_on. cbn [append].
    rewrite str_split_from_app by exact Hcomma.
    rewrite str_split_from_no_sep
      by (apply digits_only_no_comma, all_digits_only, Hmmm).
    reflexivity. }
  unfold timestamp_to_seconds.
  rewrite Hparts, Hsplit, Hh, Hm, Hs, (int_all_digits mmm Hmmm).
  cbv zeta.
  pose proof short_fields_convert as Hlimit.
  pose proof (decimal_value_bound mmm 300 (all_digits_only _ Hmmm) Hshort).
  change (Z.of_nat 300) with 300%Z in *.
  set (bound := (10 ^ 300)%Z) in *.
  rewrite !float_of_int_returns by lia.
  reflexivity.
Qed.

Lemma track_decoder_extends_window_witness :
  timestamp_to_seconds ("00:01:05" ++ "," ++ "250")
  = Returned (inject_Z 65 + inject_Z (decimal_value "250") / 1000).
Proof.
  apply (track_decoder_extends_window "00:01:05" "250" 65);
    first [reflexivity | simpl; lia].
Defined.

(** ** The engine *)

Lemma highlight_clip_within
  (text : string) (start_time end_time : Q) (video_size : video_size_t)
  (c : TextClip) :
  start_time < end_time ->
  In c (create_word_highlighting_clips text start_time end_time video_size) ->
  start_time <= clip_start c
  /\ clip_start c <= clip_end c
  /\ clip_end c <= end_time.
Proof.
  intros Hlt Hin.
  destruct (str_split text) as [| word rest] eqn:Hwords.
  { unfold create_word_highlighting_clips in Hin. rewrite Hwords in Hin.
    contradiction. }
  assert (Hne : str_split text <> []) by (rewrite Hwords; discriminate).
  rewrite (highlights_are_all_words start_time end_time video_size
             (str_split text) Hne Hlt text eq_refl) in Hin.
  apply In_nth_error in Hin. destruct Hin as [i Hi].
  rewrite nth_error_highlights_from in Hi.
  destruct (nth_error (str_split text) i) as [w |] eqn:Hw; [| discriminate].
  assert (Hlen : (i < List.length (str_split text))%nat)
    by (apply nth_error_Some; congruence).
  cbn [option_map Nat.add] in Hi. injection Hi as <-.
  destruct (highlight_clip_interval start_time end_time video_size
              (str_split text) Hne Hlt i w Hlen)
    as (_ & _ & _ & Hlo & Hhi & Hd).
  unfold clip_end in *. repeat split; lra.
Qed.

Lemma clip_window_bounds (clip_start clip_end : Z) (all_subtitles : list Sub)
  (sub : Sub) :
  In sub (clip_window clip_start clip_end all_subtitles) ->
  0 <= sub_start sub
  /\ sub_start sub < sub_end sub
  /\ sub_end sub <= inject_Z (clip_end - clip_start).
Proof.
  unfold clip_window. rewrite clip_loop_filter. cbn [app].
  intros Hin. apply in_map_iff in Hin. destruct Hin as (entry & <- & Hf).
  apply filter_In in Hf. destruct Hf as (_ & Hinc).
  apply includedb_iff in Hinc. now apply included_bounds.
Qed.




Lemma entry_clip_within (video : Video) (sub : Sub) (c : TextClip) :
  sub_start sub < sub_end sub ->
  In c (entry_clips video sub) ->
  sub_start sub <= clip_start c
  /\ clip_start c <= clip_end c
  /\ clip_end c <= sub_end sub.
Proof.
  intros Hlt Hin. unfold entry_clips in Hin. apply in_app_or in Hin.
  destruct Hin as [Hin | Hin].
  - apply (caption_clip_within _ _ _ _ _ (Qlt_le_weak _ _ Hlt) Hin).
  - apply (highlight_clip_within _ _ _ _ _ Hlt Hin).
Qed.

Lemma engine_composite
  (video : Video) (srt : file) (clip_json : result ClipData)
  (timeline : list TextClip) :
  add_interactive_subtitles_with_timing video srt clip_json
  = Returned (Composite timeline) ->
  exists clip_data clip_start clip_end all_subtitles,
    clip_json = Returned clip_data
    /\ time_to_seconds (clip_data_start clip_data) = Returned clip_start
    /\ time_to_seconds (clip_data_end clip_data) = Returned clip_end
    /\ parse_srt_file srt = Returned all_subtitles
    /\ timeline
       = flat_map (entry_clips video)
                  (filter (within_video video)
                          (clip_window clip_start clip_end all_subtitles)).
Proof.
  unfold add_interactive_subtitles_with_timing, try_except.
  destruct clip_json as [clip_data | e0]; [| discriminate].
  destruct (time_to_seconds (clip_data_start clip_data)) as [cs |] eqn:Hs;
    [| discriminate].
  destruct (time_to_seconds (clip_data_end clip_data)) as [ce |] eqn:He;
    [| discriminate].
  destruct (parse_srt_file srt) as [subtitles |] eqn:Hp; [| discriminate].
  destruct subtitles as [| sub rest]; [discriminate |].
  destruct (assemble video (clip_window cs ce (sub :: rest))) eqn:Ha;
    [discriminate |].
  intros H. injection H as <-.
  exists clip_data, cs, ce, (sub :: rest).
  repeat split; try assumption; try reflexivity.
  rewrite <- Ha. unfold assemble. now rewrite timeline_loop_flat_map.
Qed.

(** X13.  With the times as exact rationals, every clip the engine composes
    over the video lies within the clip and within the video: it starts at
    0 or later, does not end before it starts, and ends no later than the
    duration of the clip window and than the duration of the video.  The
    window then has [clip_start < clip_end].  Over binary64 the end of a
    caption, its start plus its duration, can pass these two bounds by a
    rounding error. *)
Theorem timeline_within_clip_and_video
  (video : Video) (srt : file) (clip_json : result ClipData)
  (timeline : list TextClip) :
  add_interactive_subtitles_with_timing video srt clip_json
  = Returned (Composite timeline) ->
  exists clip_data window_start window_end,
    clip_json = Returned clip_data
    /\ time_to_seconds (clip_data_start clip_data) = Returned window_start
    /\ time_to_seconds (clip_data_end clip_data) = Returned window_end
    /\ (window_start < window_end)%Z
    /\ Forall (fun c => 0 <= clip_start c
                        /\ clip_start c <= clip_end c
                        /\ clip_end c <= inject_Z (window_end - window_start)
                        /\ clip_end c <= video_duration video)
              timeline.
Proof.
  intros Hrun.
  destruct (engine_composite _ _ _ _ Hrun)
    as (clip_data & cs & ce & subs & Hjson & Hs & He & Hp & ->).
  exists clip_data, cs, ce. repeat split; try assumption.
  - destruct (Z.lt_ge_cases cs ce) as [Hlt | Hge]; [exact Hlt |].
    exfalso. unfold add_interactive_subtitles_with_timing, try_except in Hrun.
    rewrite Hjson, Hs, He, Hp in Hrun.
    destruct subs as [| sub rest]; [discriminate |].
    rewrite clip_window_empty in Hrun by exact Hge. discriminate.
  - apply Forall_forall. intros c Hc.
    apply in_flat_map in Hc. destruct Hc as (sub & Hsub & Hc).
    apply filter_In in Hsub. destruct Hsub as (Hwin & Hvid).
    apply clip_window_bounds in Hwin. destruct Hwin as (H0 & Hlt & Hdur).
    unfold within_video in Hvid. apply andb_true_iff in Hvid.
    destruct Hvid as (_ & Hend). apply Qle_bool_iff in Hend.
    destruct (entry_clip_within video sub c Hlt Hc) as (Hlo & Hmid & Hhi).
    repeat split; lra.
Qed.

Lemma timeline_within_clip_and_video_witness :
  exists timeline clip_data window_start window_end,
    Returned (mkClipData "00:00:00" "00:00:10") = Returned clip_data
    /\ time_to_seconds (clip_data_start clip_data) = Returned window_start
    /\ time_to_seconds (clip_data_end clip_data) = Returned window_end
    /\ (window_start < window_end)%Z
    /\ Forall (fun c => 0 <= clip_start c
                        /\ clip_start c <= clip_end c
                        /\ clip_end c <= inject_Z (window_end - window_start)
                        /\ clip_end c <= video_duration scenario_video)
              timeline.
Proof.
  eexists.
  apply (timeline_within_clip_and_video
           scenario_video (Contents scenario_track)
           (Returned (mkClipData "00:00:00" "00:00:10"))).
  vm_compute. reflexivity.
Defined.



(** ** The times of a suggested clip *)

Lemma split_count_three (sep : ascii) (s : string) :
  count_char sep s = 2%nat ->
  exists a b c, str_split_on sep s = [a; b; c].
Proof.
  intros Hcount. pose proof (length_str_split_from sep s ""%string) as Hlen.
  rewrite Hcount in Hlen. unfold str_split_on.
  destruct (str_split_from sep "" s) as [| a [| b [| c [| d rest]]]];
    try discriminate.
  now exists a, b, c.
Qed.

Lemma convert_two_colons (time_str : string) :
  count_char ":" time_str = 2%nat ->
  convert_time_to_seconds time_str = time_to_seconds time_str.
Proof.
  intros Hcount. destruct (split_count_three _ _ Hcount) as (a & b & c & H).
  unfold convert_time_to_seconds, time_to_seconds. now rewrite H.
Qed.

(** X15.  [convert_time_to_seconds] of suggest_clip.py agrees with
    [time_to_seconds] of the engine on every string with two colons, and
    returns what [time_to_seconds] returns whenever that one returns. *)
Theorem convert_agrees_with_time_to_seconds (time_str : string) :
  (count_char ":" time_str = 2%nat ->
   convert_time_to_seconds time_str = time_to_seconds time_str)
  /\ (forall z,
         time_to_seconds time_str = Returned z ->
         convert_time_to_seconds time_str = Returned z).
Proof.
  split; [apply convert_two_colons |].
  intros z Hz. rewrite convert_two_colons; [exact Hz |].
  destruct (time_to_seconds_returned _ _ Hz)
    as (h & m & s & _ & _ & _ & Hsplit & _).
  now apply split_three_count in Hsplit.
Qed.

Lemma convert_agrees_with_time_to_seconds_witness :
  convert_time_to_seconds "00:01:30" = time_to_seconds "00:01:30".
Proof.
  apply (proj1 (convert_agrees_with_time_to_seconds "00:01:30")).
  reflexivity.
Defined.

Lemma validate_timestamps_valid (start_time end_time : string)
  (message : string) :
  validate_timestamps start_time end_time = Returned (true, message) ->
  exists start_seconds end_seconds,
    convert_time_to_seconds start_time = Returned start_seconds
    /\ convert_time_to_seconds end_time = Returned end_seconds
    /\ (15 <= end_seconds - start_seconds <= 120)%Z
    /\ message = "Valid"%string.
Proof.
  unfold validate_timestamps.
  destruct (convert_time_to_seconds start_time) as [ss |]; [| discriminate].
  destruct (convert_time_to_seconds end_time) as [es |]; [| discriminate].
  destruct (es <=? ss)%Z eqn:E1; [discriminate |].
  destruct (es - ss <? 15)%Z eqn:E2; [discriminate |].
  destruct (120 <? es - ss)%Z eqn:E3; [discriminate |].
  intros H. injection H as <-.
  exists ss, es. repeat split; try reflexivity; lia.
Qed.

(** X16.  [validate_timestamps] answers [(True, "Valid")] exactly when both
    times convert and the end is 15 to 120 seconds after the start.  When
    both times are then in the form with two colons, the engine decodes
    them to a window with [clip_start < clip_end] of that duration. *)
Theorem validated_window_is_valid (start_time end_time : string) :
  (validate_timestamps start_time end_time = Returned (true, "Valid"%string)
   <-> exists start_seconds end_seconds,
         convert_time_to_seconds start_time = Returned start_seconds
         /\ convert_time_to_seconds end_time = Returned end_seconds
         /\ (15 <= end_seconds - start_seconds <= 120)%Z)
  /\ (forall message,
         validate_timestamps start_time end_time = Returned (true, message) ->
         count_char ":" start_time = 2%nat ->
         count_char ":" end_time = 2%nat ->
         exists window_start window_end,
           time_to_seconds start_time = Returned window_start
           /\ time_to_seconds end_time = Returned window_end
           /\ (window_start < window_end)%Z
           /\ (15 <= window_end - window_start <= 120)%Z).
Proof.
  split; [split |].
  - intros H. destruct (validate_timestamps_valid _ _ _ H)
      as (ss & es & Hs & He & Hd & _).
    now exists ss, es.
  - intros (ss & es & Hs & He & Hd). unfold validate_timestamps.
    rewrite Hs, He.
    replace (es <=? ss)%Z with false by (symmetry; apply Z.leb_gt; lia).
    replace (es - ss <? 15)%Z with false by (symmetry; apply Z.ltb_ge; lia).
    replace (120 <? es - ss)%Z with false by (symmetry; apply Z.ltb_ge; lia).
    reflexivity.
  - intros message H Hc1 Hc2.
    destruct (validate_timestamps_valid _ _ _ H)
      as (ss & es & Hs & He & Hd & _).
    exists ss, es.
    rewrite (convert_two_colons start_time Hc1) in Hs.
    rewrite (convert_two_colons end_time Hc2) in He.
    repeat split; try assumption; lia.
Qed.

Lemma validated_window_is_valid_witness :
  exists window_start window_end,
    time_to_seconds "00:00:10" = Returned window_start
    /\ time_to_seconds "00:01:00" = Returned window_end
    /\ (window_start < window_end)%Z
    /\ (15 <= window_end - window_start <= 120)%Z.
Proof.
  apply (proj2 (validated_window_is_valid "00:00:10" "00:01:00")
               "Valid"%string);
    reflexivity.
Defined.



(** ** The crop of a frame *)

(** X18.  The offsets that [calculate_smart_crop] writes in the filter are
    never negative.  When the frame is at least as large as the target, the
    crop lies within the frame; when the frame is narrower (or lower) than
    the target, the offset is 0. *)
Theorem crop_within_frame
  (width height : Z) (face_center : option (Z * Z))
  (target_width target_height : Z) :
  let (crop_x, crop_y) :=
    crop_offsets width height face_center target_width target_height in
  calculate_smart_crop (Some (width, height)) face_center
                       target_width target_height
  = ("crop=" ++ str_of_int target_width ++ ":" ++ str_of_int target_height
     ++ ":" ++ str_of_int crop_x ++ ":" ++ str_of_int crop_y)%string
  /\ (0 <= crop_x /\ 0 <= crop_y)%Z
  /\ ((target_width <= width)%Z -> (crop_x + target_width <= width)%Z)
  /\ ((target_height <= height)%Z -> (crop_y + target_height <= height)%Z)
  /\ ((width < target_width)%Z -> crop_x = 0%Z)
  /\ ((height < target_height)%Z -> crop_y = 0%Z).
Proof.
  unfold calculate_smart_crop, crop_offsets.
  destruct face_center as [[face_x face_y] |]; cbv zeta.
  - split; [reflexivity |]. repeat split; lia.
  - pose proof (Z.div_pos (width - target_width) 2).
    pose proof (Z.div_pos (height - target_height) 2).
    pose proof (Z.div_le_upper_bound (width - target_width) 2
                                     (width - target_width)).
    pose proof (Z.div_le_upper_bound (height - target_height) 2
                                     (height - target_height)).
    pose proof (Z.div_lt_upper_bound (width - target_width) 2 0).
    pose proof (Z.div_lt_upper_bound (height - target_height) 2 0).
    split; [reflexivity |]. repeat split; lia.
Qed.

(** X19.  When a face was found inside the frame and the frame is at least
    as large as the target, the crop holds the centre of the face; the face
    is at the middle of the crop whenever that leaves the crop inside the
    frame. *)
Theorem crop_holds_the_face
  (width height face_x face_y target_width target_height : Z) :
  (0 < target_width <= width)%Z ->
  (0 < target_height <= height)%Z ->
  (0 <= face_x < width)%Z ->
  (0 <= face_y < height)%Z ->
  let (crop_x, crop_y) :=
    crop_offsets width height (Some (face_x, face_y))
                 target_width target_height in
  (crop_x <= face_x < crop_x + target_width)%Z
  /\ (crop_y <= face_y < crop_y + target_height)%Z
  /\ ((target_width / 2 <= face_x <= width - target_width + target_width / 2)%Z
      -> (crop_x + target_width / 2)%Z = face_x)
  /\ ((target_height / 2 <= face_y
       <= height - target_height + target_height / 2)%Z
      -> (crop_y + target_height / 2)%Z = face_y).
Proof.
  intros Hw Hh Hx Hy. unfold crop_offsets. cbv zeta.
  assert (Hdw : (0 <= target_width / 2 < target_width)%Z)
    by (split; [apply Z.div_pos | apply Z.div_lt_upper_bound]; lia).
  assert (Hdh : (0 <= target_height / 2 < target_height)%Z)
    by (split; [apply Z.div_pos | apply Z.div_lt_upper_bound]; lia).
  repeat split; lia.
Qed.

Lemma crop_holds_the_face_witness :
  let (crop_x, crop_y) :=
    crop_offsets 1920 1080 (Some (1500, 500)%Z) 608 1080 in
  (crop_x <= 1500 < crop_x + 608)%Z
  /\ (crop_y <= 500 < crop_y + 1080)%Z
  /\ ((608 / 2 <= 1500 <= 1920 - 608 + 608 / 2)%Z
      -> (crop_x + 608 / 2)%Z = 1500%Z)
  /\ ((1080 / 2 <= 500 <= 1080 - 1080 + 1080 / 2)%Z
      -> (crop_y + 1080 / 2)%Z = 500%Z).
Proof.
  apply (crop_holds_the_face 1920 1080 1500 500 608 1080); lia.
Defined.

(** ** The text of a track *)

Lemma has_word_nonempty (text : string) :
  str_split text <> [] -> nonempty text = true.
Proof.
  destruct text; [intros H; now destruct H | reflexivity].
Qed.

Lemma extract_loop_parsed (blocks : list string) :
  forallb timestamped_block blocks = true ->
  forall subtitles parsed,
    parse_blocks blocks subtitles = Returned parsed ->
    extract_loop blocks (map sub_text subtitles) = map sub_text parsed.
Proof.
  induction blocks as [| block rest IH]; intros Hall subtitles parsed Hparse.
  - cbn [parse_blocks] in Hparse. injection Hparse as <-. reflexivity.
  - cbn [forallb] in Hall. apply andb_true_iff in Hall.
    destruct Hall as [Hblock Hrest].
    cbn [parse_blocks] in Hparse. cbv zeta in Hparse.
    cbn [extract_loop]. cbv zeta.
    unfold timestamped_block, well_formed_block in Hblock.
    pose proof (block_text_has_word block) as Hword. cbv zeta in Hword.
    destruct (3 <=? List.length (str_split_on LF (str_strip block)))%nat
      eqn:Hlen; [| now apply IH].
    cbn [negb orb andb] in Hblock.
    rewrite (has_word_nonempty _ (Hword (proj1 (Nat.leb_le _ _) Hlen))).
    destruct (re_match_timestamps
                (nth 1 (str_split_on LF (str_strip block)) ""%string))
      as [[start_time end_time] |]; [| discriminate].
    destruct (timestamp_to_seconds start_time) as [q1 |]; [| discriminate].
    destruct (timestamp_to_seconds end_time) as [q2 |]; [| discriminate].
    rewrite <- (IH Hrest _ _ Hparse), map_app. reflexivity.
Qed.

(** X20.  On a track in which every block of three lines or more has a
    timestamp line that matches, the text that suggest_clip.py extracts for
    analysis is the texts of the entries that [parse_srt_file] returns,
    joined by single spaces. *)
Theorem extracted_text_is_parsed_text (srt_content : string) :
  forallb timestamped_block (re_split_blank (str_strip srt_content)) = true ->
  exists parsed,
    parse_srt_file (Contents srt_content) = Returned parsed
    /\ extract_text_from_srt srt_content = str_join (map sub_text parsed).
Proof.
  intros Hall.
  destruct (parse_blocks_returns (re_split_blank (str_strip srt_content)) [])
    as [parsed Hbody].
  exists parsed. split.
  - unfold parse_srt_file, parse_srt_body, read, try_except.
    now rewrite Hbody.
  - unfold extract_text_from_srt. cbv zeta. f_equal.
    exact (extract_loop_parsed _ Hall [] parsed Hbody).
Qed.

Lemma extracted_text_is_parsed_text_witness :
  exists parsed,
    parse_srt_file (Contents scenario_track) = Returned parsed
    /\ extract_text_from_srt scenario_track = str_join (map sub_text parsed).
Proof.
  apply (extracted_text_is_parsed_text scenario_track). reflexivity.
Defined.

(** ** The names of the files *)

Lemma length_append (a b : string) :
  String.length (a ++ b) = (String.length a + String.length b)%nat.
Proof.
  induction a as [| c a IH]; simpl; [reflexivity | now rewrite IH].
Qed.

Lemma substring_append_skip (a b : string) (k n : nat) :
  substring (String.length a + k) n (a ++ b) = substring k n b.
Proof.
  induction a as [| c a IH]; simpl; [reflexivity | exact IH].
Qed.

Lemma substring_prefix (a b : string) :
  substring 0 (String.length a) (a ++ b) = a.
Proof.
  induction a as [| c a IH]; simpl.
  - now destruct b.
  - now rewrite IH.
Qed.

Lemma substring_split (s : string) :
  forall k,
    (k <= String.length s)%nat ->
    (substring 0 k s ++ substring k (String.length s - k) s)%string = s.
Proof.
  induction s as [| c s IH]; intros k Hk.
  - simpl in Hk. now replace k with 0%nat by lia.
  - destruct k as [| k].
    + cbn [substring append String.length Nat.sub].
      f_equal. specialize (IH 0%nat ltac:(lia)).
      rewrite Nat.sub_0_r in IH.
      assert (H0 : substring 0 0 s = ""%string) by now destruct s.
      rewrite H0 in IH. exact IH.
    + cbn [substring append String.length Nat.sub]. f_equal.
      apply IH. simpl in Hk. lia.
Qed.

(** X21.  [process_short_video] takes the suffix ["_short"] off the name of
    a short video and nothing else: from [base ++ "_short"] it gets [base],
    a name without the suffix is kept, and in both cases the name is the
    base name followed by what was taken off.  The file it writes,
    [base_name ++ "_with_subtitles.mp4"], is not selected by the pattern
    ["*_short.mp4"] of [main], so a second run does not process the files
    of the first. *)
Theorem short_video_names :
  (forall base, base_name_of (base ++ "_short") = base)
  /\ (forall video_name,
         video_name
         = (base_name_of video_name
            ++ if str_endswith video_name "_short" then "_short" else "")%string)
  /\ (forall base_name, is_short_video (output_name base_name) = false).
Proof.
  split; [| split].
  - intros base. unfold base_name_of, str_endswith, str_drop_last.
    rewrite length_append. cbn [String.length].
    replace (String.length base + 6 - 6)%nat with (String.length base + 0)%nat
      by lia.
    rewrite substring_append_skip. cbn [substring].
    rewrite String.eqb_refl, andb_true_r.
    replace (6 <=? String.length base + 6)%nat with true
      by (symmetry; apply Nat.leb_le; lia).
    rewrite Nat.add_0_r. apply substring_prefix.
  - intros video_name. unfold base_name_of.
    destruct (str_endswith video_name "_short") eqn:E.
    + unfold str_endswith in E. apply andb_true_iff in E.
      destruct E as [Hlen Heq]. apply Nat.leb_le in Hlen.
      apply String.eqb_eq in Heq. cbn [String.length] in Hlen, Heq.
      unfold str_drop_last.
      pose proof (substring_split video_name (String.length video_name - 6)
                    ltac:(lia)) as Hsplit.
      replace (String.length video_name - (String.length video_name - 6))%nat
        with 6%nat in Hsplit by lia.
      rewrite Heq in Hsplit. symmetry. exact Hsplit.
    + now rewrite append_empty_r.
  - intros base_name. unfold is_short_video, output_name, str_endswith.
    rewrite length_append. cbn [String.length].
    replace (String.length base_name + 19 - 10)%nat
      with (String.length base_name + 9)%nat by lia.
    rewrite substring_append_skip. cbn [substring].
    now rewrite andb_false_r.
Qed.

(** ** What the window clipper does to an entry *)

Lemma inject_Z_minus (a b : Z) : inject_Z (a - b) == inject_Z a - inject_Z b.
Proof.
  unfold Z.sub. rewrite inject_Z_plus, inject_Z_opp. reflexivity.
Qed.

Lemma rebase_times (window_start window_end : Z) (entry : Sub) :
  (sub_start (rebase window_start window_end entry) == 0
   \/ sub_start (rebase window_start window_end entry)
      == sub_start entry - inject_Z window_start)
  /\ sub_start entry - inject_Z window_start
     <= sub_start (rebase window_start window_end entry)
  /\ 0 <= sub_start (rebase window_start window_end entry)
  /\ (sub_end (rebase window_start window_end entry)
      == inject_Z window_end - inject_Z window_start
      \/ sub_end (rebase window_start window_end entry)
         == sub_end entry - inject_Z window_start)
  /\ sub_end (rebase window_start window_end entry)
     <= sub_end entry - inject_Z window_start
  /\ sub_end (rebase window_start window_end entry)
     <= inject_Z window_end - inject_Z window_start.
Proof.
  unfold rebase, adjusted_start, adjusted_end. cbn [sub_start sub_end].
  pose proof (inject_Z_minus window_end window_start) as Hd.
  destruct (Qmax_cases 0 (sub_start entry - inject_Z window_start))
    as [[H1 ->] | [H1 ->]];
    destruct (Qmin_cases (inject_Z (window_end - window_start))
                         (sub_end entry - inject_Z window_start))
      as [[H2 ->] | [H2 ->]];
    repeat split; try lra;
    try (left; lra); try (right; lra); try (left; reflexivity);
    try (right; reflexivity).
Qed.

(** X22.  An entry that lies inside the window is emitted, shifted by the
    start of the window: its start and its end both move back by
    [clip_start], so that it keeps its duration. *)
Theorem entry_inside_window_is_shifted
  (window_start window_end : Z) (entry : Sub) :
  inject_Z window_start <= sub_start entry ->
  sub_start entry < sub_end entry ->
  sub_end entry <= inject_Z window_end ->
  exists clipped,
    clip_window window_start window_end [entry] = [clipped]
    /\ sub_text clipped = sub_text entry
    /\ sub_start clipped == sub_start entry - inject_Z window_start
    /\ sub_end clipped == sub_end entry - inject_Z window_start
    /\ sub_end clipped - sub_start clipped
       == sub_end entry - sub_start entry.
Proof.
  intros Hlo Hlt Hhi.
  pose proof (inject_Z_minus window_end window_start) as Hd.
  assert (Hs : adjusted_start window_start entry
               == sub_start entry - inject_Z window_start).
  { unfold adjusted_start.
    destruct (Qmax_cases 0 (sub_start entry - inject_Z window_start))
      as [[H1 ->] | [H1 ->]]; lra. }
  assert (He : adjusted_end window_start window_end entry
               == sub_end entry - inject_Z window_start).
  { unfold adjusted_end.
    destruct (Qmin_cases (inject_Z (window_end - window_start))
                         (sub_end entry - inject_Z window_start))
      as [[H2 ->] | [H2 ->]]; lra. }
  assert (Hinc : includedb window_start window_end entry = true).
  { apply includedb_iff. unfold included. rewrite Hs, He.
    repeat split; lra. }
  exists (rebase window_start window_end entry).
  unfold clip_window. rewrite clip_loop_filter. cbn [filter app].
  rewrite Hinc. cbn [map rebase sub_text sub_start sub_end].
  repeat split; try assumption. rewrite Hs, He. lra.
Qed.

Lemma entry_inside_window_is_shifted_witness :
  exists clipped,
    clip_window 5 15 [mkSub 6 9 "c"] = [clipped]
    /\ sub_text clipped = "c"%string
    /\ sub_start clipped == 6 - inject_Z 5
    /\ sub_end clipped == 9 - inject_Z 5
    /\ sub_end clipped - sub_start clipped == 9 - 6.
Proof.
  apply (entry_inside_window_is_shifted 5 15 (mkSub 6 9 "c"));
    vm_compute; first [reflexivity | discriminate].
Defined.

(** X23.  Clipping never lengthens or moves an entry: every entry emitted
    comes from an entry of the input, starts no earlier and ends no later
    than that entry shifted by [clip_start], and so lasts no longer; its
    start is the start of the window or the shifted start, its end the end
    of the window or the shifted end. *)
Theorem clipping_only_truncates
  (window_start window_end : Z) (all_subtitles : list Sub) (clipped : Sub) :
  In clipped (clip_window window_start window_end all_subtitles) ->
  exists entry,
    In entry all_subtitles
    /\ sub_text clipped = sub_text entry
    /\ sub_start entry - inject_Z window_start <= sub_start clipped
    /\ sub_end clipped <= sub_end entry - inject_Z window_start
    /\ sub_end clipped - sub_start clipped <= sub_end entry - sub_start entry
    /\ (sub_start clipped == 0
        \/ sub_start clipped == sub_start entry - inject_Z window_start)
    /\ (sub_end clipped == inject_Z window_end - inject_Z window_start
        \/ sub_end clipped == sub_end entry - inject_Z window_start).
Proof.
  unfold clip_window. rewrite clip_loop_filter. cbn [app].
  intros Hin. apply in_map_iff in Hin. destruct Hin as (entry & <- & Hf).
  apply filter_In in Hf. destruct Hf as (Hentry & _).
  exists entry.
  destruct (rebase_times window_start window_end entry)
    as (Hs & Hslo & _ & He & Hehi & _).
  repeat split; try assumption. lra.
Qed.

Lemma clipping_only_truncates_witness :
  exists entry,
    In entry [mkSub 0 3 "a"; mkSub 4 6 "c"]
    /\ "c"%string = sub_text entry
    /\ sub_start entry - inject_Z 5 <= 0
    /\ 6 - 5 <= sub_end entry - inject_Z 5
    /\ 6 - 5 - 0 <= sub_end entry - sub_start entry
    /\ (0 == 0 \/ 0 == sub_start entry - inject_Z 5)
    /\ (6 - 5 == inject_Z 15 - inject_Z 5
        \/ 6 - 5 == sub_end entry - inject_Z 5).
Proof.
  apply (clipping_only_truncates 5 15 [mkSub 0 3 "a"; mkSub 4 6 "c"]
                                 (mkSub 0 (6 - 5) "c")).
  left. reflexivity.
Defined.

Lemma StronglySorted_filter {A : Type} (R : A -> A -> Prop) (f : A -> bool)
  (xs : list A) :
  StronglySorted R xs -> StronglySorted R (filter f xs).
Proof.
  induction 1 as [| x xs Hsorted IH Hall]; cbn [filter]; [constructor |].
  destruct (f x); [| exact IH].
  constructor; [exact IH |].
  apply Forall_forall. intros y Hy. apply filter_In in Hy.
  rewrite Forall_forall in Hall. now apply Hall.
Qed.

Lemma StronglySorted_map {A B : Type} (R : A -> A -> Prop)
  (R' : B -> B -> Prop) (g : A -> B) (xs : list A) :
  (forall a b, R a b -> R' (g a) (g b)) ->
  StronglySorted R xs -> StronglySorted R' (map g xs).
Proof.
  intros Hmono. induction 1 as [| x xs Hsorted IH Hall]; cbn [map];
    [constructor |].
  constructor; [exact IH |].
  apply Forall_forall. intros y Hy. apply in_map_iff in Hy.
  destruct Hy as (a & <- & Ha). rewrite Forall_forall in Hall.
  now apply Hmono, Hall.
Qed.

(** X24.  The window clipper keeps the order of the start times: when the
    entries of the transcript are in that order, so are the entries it
    emits. *)
Theorem clipping_keeps_the_order
  (window_start window_end : Z) (all_subtitles : list Sub) :
  ordered_by_start all_subtitles ->
  ordered_by_start (clip_window window_start window_end all_subtitles).
Proof.
  intros Hsorted. unfold clip_window. rewrite clip_loop_filter. cbn [app].
  unfold ordered_by_start.
  apply (StronglySorted_map (fun a b => sub_start a <= sub_start b)).
  - intros a b Hab. cbn [rebase sub_start]. unfold adjusted_start.
    destruct (Qmax_cases 0 (sub_start a - inject_Z window_start))
      as [[Ha ->] | [Ha ->]];
      destruct (Qmax_cases 0 (sub_start b - inject_Z window_start))
        as [[Hb ->] | [Hb ->]]; lra.
  - now apply StronglySorted_filter.
Qed.

Lemma clipping_keeps_the_order_witness :
  ordered_by_start (clip_window 5 15 [mkSub 4 6 "c"; mkSub 14 17 "e"]).
Proof.
  apply (clipping_keeps_the_order 5 15 [mkSub 4 6 "c"; mkSub 14 17 "e"]).
  repeat constructor. vm_compute. discriminate.
Defined.

(** ** The clip makers over binary64 *)

(** C1, counterexample.  The entry of the scenario, from 2.0 to 6.0 with
    six words.  Over binary64 the first caption lasts 3.3333333333333335
    and ends at 5.333333333333334, where the second starts; the second
    lasts 0.6666666666666666 and ends at [0x1.8000000000001p+2], which is
    6.000000000000001: after the end of the entry, not at it. *)
Lemma scenario_last_caption_overshoots :
  let clips :=
    Binary64.create_subtitle_clip scenario_text 2%float 6%float
                                  (1080, 1920)%Z in
  map Binary64.times clips
  = [("This is a test sentence"%string, 2%float,
      0x1.aaaaaaaaaaaabp+1%float, 0x1.5555555555556p+2%float);
     ("here"%string, 0x1.5555555555556p+2%float,
      0x1.5555555555555p-1%float, 0x1.8000000000001p+2%float)]
  /\ (forall last,
         nth_error clips (List.length clips - 1) = Some last ->
         Binary64.clip_end last <> 6%float
         /\ PrimFloat.ltb 6%float (Binary64.clip_end last) = true).
Proof.
  split; [vm_compute; reflexivity |].
  intros last Hlast. vm_compute in Hlast. injection Hlast as <-.
  split; [| vm_compute; reflexivity].
  intros Hend.
  assert (Hlt : PrimFloat.ltb 6%float 6%float = true).
  { rewrite <- Hend at 2. vm_compute. reflexivity. }
  vm_compute in Hlt. discriminate.
Qed.

(** Over binary64 the word highlighter can skip words.  With three words
    between [1e16] and [1e16 + 2], where consecutive floats are 2 apart,
    the first and the third highlight come out with a duration of zero and
    are skipped: one highlight is emitted, for the second word. *)
Lemma highlighter_skips_words_over_binary64 :
  map Binary64.times
      (Binary64.create_word_highlighting_clips
         "a b c" 10000000000000000%float 10000000000000002%float
         (1080, 1920)%Z)
  = [("b"%string, 10000000000000000%float, 2%float,
      10000000000000002%float)].
Proof.
  vm_compute. reflexivity.
Qed.

(** On the entry of the scenario the highlights over binary64 are the six
    of the exact model, each within the entry, the last ending at 6.0. *)
Lemma scenario_highlights_over_binary64 :
  let clips :=
    Binary64.create_word_highlighting_clips scenario_text 2%float 6%float
                                            (1080, 1920)%Z in
  map Binary64.clip_txt clips = str_split scenario_text
  /\ forallb (fun c => PrimFloat.leb 2%float (Binary64.clip_start c)
                       && PrimFloat.leb (Binary64.clip_end c) 6%float
                       && PrimFloat.ltb 0%float (Binary64.clip_duration c))
             clips = true.
Proof.
  split; vm_compute; reflexivity.
Qed.
